(** * librarian: command state assembly and release-worthiness

    A shallow embedding of [internal/librarian/command.go] and of the
    release-worthiness decision exercised by [TestIsReleaseWorthy].

    Go strings are [string]; a Go [error] is [option string] ([None] is
    [nil], [Some msg] an error whose [Error()] text is [msg]); a pointer
    that may be [nil] is an [option]. *)

From Stdlib Require Import String Ascii List ZArith Lia Bool DecimalString.
Import ListNotations.
Open Scope string_scope.

(** ** Go runtime pieces used by the package *)

(** A Go [error] value: [None] is [nil]. *)
Definition error : Type := option string.

(** [errors.New]. *)
Definition errors_New (msg : string) : error := Some msg.

(** [slices.Contains] on a slice of strings. *)
Fixpoint slices_Contains (s : list string) (v : string) : bool :=
  match s with
  | [] => false
  | x :: rest => if (x =? v)%string then true else slices_Contains rest v
  end.

Module Fmt.

(** What [fmt] appends when operands are left over once the format is
    used up: [%!(EXTRA string=a, string=b)]. *)
Fixpoint extraOperands (args : list string) : string :=
  match args with
  | [] => ""
  | [a] => "string=" ++ a
  | a :: rest => "string=" ++ a ++ ", " ++ extraOperands rest
  end.

Definition extra (args : list string) : string :=
  match args with
  | [] => ""
  | _ :: _ => "%!(EXTRA " ++ extraOperands args ++ ")"
  end.

(** The verbs that print a string operand as it is: [%s] and [%v], and
    [%w] where wrapping is allowed, that is inside [Errorf], whose [error]
    operand is passed as its [Error()] text. *)
Definition printsOperand (wrap : bool) (v : ascii) : bool :=
  ((v =? "s") || (v =? "v") || (wrap && (v =? "w")))%char.

(** The formatting loop on string operands.  [%%] prints a percent sign; a
    verb prints the next operand, as it is or, for a verb that does not
    apply to it, as [%!v(string=operand)]; a verb without operand prints
    [%!v(MISSING)]; a lone [%] at the end of the format prints
    [%!(NOVERB)]; operands left over are listed at the end.  Flags, widths
    and the verbs [%q], [%x] and [%X] do not occur in this package and are
    not modelled. *)
Fixpoint doPrintf (wrap : bool) (format : string) (args : list string) : string :=
  match format with
  | EmptyString => extra args
  | String c rest =>
      if (c =? "%")%char then
        match rest with
        | EmptyString => "%!(NOVERB)" ++ extra args
        | String v rest' =>
            if (v =? "%")%char then String "%" (doPrintf wrap rest' args)
            else
              match args with
              | a :: args' =>
                  (if printsOperand wrap v then a
                   else "%!" ++ String v ("(string=" ++ a ++ ")"))
                    ++ doPrintf wrap rest' args'
              | [] => "%!" ++ String v ("(MISSING)" ++ doPrintf wrap rest' [])
              end
        end
      else String c (doPrintf wrap rest args)
  end.

(** [fmt.Sprintf]. *)
Definition Sprintf (format : string) (args : list string) : string :=
  doPrintf false format args.

(** [fmt.Errorf]: the error whose text is the formatted string, [%w]
    allowed. *)
Definition Errorf (format : string) (args : list string) : error :=
  Some (doPrintf true format args).

End Fmt.

(** ** The persisted pipeline state *)

Module Statepb.

(** Modelled from the spec: the generated [statepb.LibraryState] message
    is declared outside this package; only the fields that the package
    reads are kept (the library id and its list of API paths). *)
Record LibraryState : Type := {
  Id : string;
  ApiPaths : list string
}.

(** Modelled from the spec: the generated [statepb.PipelineState]
    message, with the fields that the package reads (the recorded image
    tag and the library list).  The entries of [Libraries] are the
    messages themselves: a decoded state holds no nil entry. *)
Record PipelineState : Type := {
  ImageTag : string;
  Libraries : list LibraryState
}.

End Statepb.

Import Statepb.

(** ** The commit message model and the release decision *)

(** Modelled from the spec: the [CommitMessage] struct built by the commit
    parser, which is declared in a file of the package outside [command.go]; the field names are those of the literals in
    [TestIsReleaseWorthy], where both library sets are [[]string]. *)
Record CommitMessage : Type := {
  Features : list string;
  Fixes : list string;
  Breaking : bool;
  Docs : list string;
  PiperOrigins : list string;
  SourceLinks : list string;
  CommitHash : string;
  TriggerLibraries : list string;
  NoTriggerLibraries : list string
}.

(** The zero value [&CommitMessage{}]. *)
Definition zeroCommitMessage : CommitMessage :=
  {| Features := []; Fixes := []; Breaking := false; Docs := [];
     PiperOrigins := []; SourceLinks := []; CommitHash := "";
     TriggerLibraries := []; NoTriggerLibraries := [] |}.

(** Modelled from the spec: [IsReleaseWorthy], whose body lies outside
    [command.go] and its tests (only the test table
    [TestIsReleaseWorthy] fixes it).  The three rules of the
    decision engine, first match wins: a library in [NoTriggerLibraries] is
    never release worthy; else one in [TriggerLibraries] always is; else the
    message is release worthy iff it has a feature, a fix or a breaking
    change. *)
Definition IsReleaseWorthy (message : CommitMessage) (libraryId : string) : bool :=
  if slices_Contains (NoTriggerLibraries message) libraryId then false
  else if slices_Contains (TriggerLibraries message) libraryId then true
  else (0 <? length (Features message))%nat
       || (0 <? length (Fixes message))%nat
       || Breaking message.

(** One row of the table of [TestIsReleaseWorthy]. *)
Record releaseCase : Type := {
  caseMessage : CommitMessage;
  caseLibraryId : string;
  caseExpected : bool
}.

Definition msgWith (features fixes : list string) (breaking : bool)
    (trigger noTrigger : list string) : CommitMessage :=
  {| Features := features; Fixes := fixes; Breaking := breaking; Docs := [];
     PiperOrigins := []; SourceLinks := []; CommitHash := "";
     TriggerLibraries := trigger; NoTriggerLibraries := noTrigger |}.

(** The rows of [TestIsReleaseWorthy], in the order of the test file. *)
Definition releaseCases : list releaseCase :=
  [ {| caseMessage := zeroCommitMessage; caseLibraryId := "lib-B"; caseExpected := false |};
    {| caseMessage := msgWith [] [] false [] ["lib-A"];
       caseLibraryId := "lib-A"; caseExpected := false |};
    {| caseMessage := msgWith ["new feature"] [] false [] ["lib-A"];
       caseLibraryId := "lib-A"; caseExpected := false |};
    {| caseMessage := msgWith [] ["bug fix"] false [] ["lib-A"];
       caseLibraryId := "lib-A"; caseExpected := false |};
    {| caseMessage := msgWith [] [] true [] ["lib-A"];
       caseLibraryId := "lib-A"; caseExpected := false |};
    {| caseMessage := msgWith [] [] false ["lib-B"] [];
       caseLibraryId := "lib-B"; caseExpected := true |};
    {| caseMessage := msgWith [] [] false ["lib-B"] ["lib-B"];
       caseLibraryId := "lib-B"; caseExpected := false |};
    {| caseMessage := msgWith ["new feature"] [] false [] [];
       caseLibraryId := "lib-C"; caseExpected := true |};
    {| caseMessage := msgWith [] ["bug fix"] false [] [];
       caseLibraryId := "lib-D"; caseExpected := true |};
    {| caseMessage := msgWith [] [] true [] [];
       caseLibraryId := "lib-E"; caseExpected := true |};
    {| caseMessage := msgWith ["f1"] ["fx1"] false [] [];
       caseLibraryId := "lib-F"; caseExpected := true |};
    {| caseMessage := msgWith ["f1"] ["fx1"] true [] [];
       caseLibraryId := "lib-G"; caseExpected := true |};
    {| caseMessage :=
         {| Features := []; Fixes := []; Breaking := false;
            Docs := ["update docs"]; PiperOrigins := ["p1"];
            SourceLinks := ["s1"]; CommitHash := "abc";
            TriggerLibraries := []; NoTriggerLibraries := [] |};
       caseLibraryId := "lib-H"; caseExpected := false |} ].

Definition caseHolds (c : releaseCase) : bool :=
  Bool.eqb (IsReleaseWorthy (caseMessage c) (caseLibraryId c)) (caseExpected c).

(** ** Pure helpers of [command.go] *)

(** [deriveImage]: the image override wins; otherwise the generator image
    of the language, tagged from the pipeline state, under the default
    repository when there is one. *)
Definition deriveImage (language imageOverride defaultRepository : string)
    (state : option PipelineState) : string :=
  if negb (imageOverride =? "") then imageOverride
  else
    let relativeImage := Fmt.Sprintf "google-cloud-%s-generator" [language] in
    let tag :=
      match state with
      | None => "latest"
      | Some st => ImageTag st
      end in
    if defaultRepository =? "" then
      Fmt.Sprintf "%s:%s" [relativeImage; tag]
    else
      Fmt.Sprintf "%s/%s:%s" [defaultRepository; relativeImage; tag].

(** The tag that [deriveImage] puts after the colon. *)
Definition tagOf (state : option PipelineState) : string :=
  match state with
  | None => "latest"
  | Some st => ImageTag st
  end.

(** The loop of [findLibraryIDByApiPath] over [state.Libraries]. *)
Fixpoint findLibraryIDIn (libraries : list LibraryState) (apiPath : string) : string :=
  match libraries with
  | [] => ""
  | library :: rest =>
      if slices_Contains (ApiPaths library) apiPath then Id library
      else findLibraryIDIn rest apiPath
  end.

(** [findLibraryIDByApiPath] on a state that is not nil. *)
Definition findLibraryIDByApiPath (state : PipelineState) (apiPath : string) : string :=
  findLibraryIDIn (Libraries state) apiPath.

(** The loop of [findLibraryByID]. *)
Fixpoint findLibraryIn (libraries : list LibraryState) (libraryID : string)
    : option LibraryState :=
  match libraries with
  | [] => None
  | library :: rest =>
      if Id library =? libraryID then Some library
      else findLibraryIn rest libraryID
  end.

Definition findLibraryByID (state : PipelineState) (libraryID : string)
    : option LibraryState :=
  findLibraryIn (Libraries state) libraryID.

Definition formatReleaseTag (libraryID version : string) : string :=
  libraryID ++ "-" ++ version.

(** ** Time values and their layout-driven rendering *)

Module Time.

Local Open Scope Z_scope.

(** A [time.Time] as the package observes it: the instant (seconds and
    nanoseconds since the Unix epoch) and the offset, in seconds east of
    UTC, that the value's [Location] has at that instant.  [time.Now]
    yields a value in the local zone, [t.UTC()] the same instant with
    offset zero. *)
Record Time : Type := {
  unixSec : Z;
  nsec : Z;
  offset : Z
}.

Definition UTC (t : Time) : Time :=
  {| unixSec := unixSec t; nsec := nsec t; offset := 0 |}.

(** The wall clock that [Format] renders: seconds since the epoch, shifted
    by the zone offset of the value. *)
Definition wallSec (t : Time) : Z := unixSec t + offset t.

Definition daysSinceEpoch (t : Time) : Z := wallSec t / 86400.
Definition secOfDay (t : Time) : Z := wallSec t mod 86400.

(** Proleptic Gregorian (year, month, day) of a day count since
    1970-01-01, by 400-year eras starting on March 1st. *)
Definition civil (days : Z) : Z * Z * Z :=
  let z := days + 719468 in
  let era := z / 146097 in
  let doe := z - era * 146097 in
  let yoe := (doe - doe / 1460 + doe / 36524 - doe / 146096) / 365 in
  let doy := doe - (365 * yoe + yoe / 4 - yoe / 100) in
  let mp := (5 * doy + 2) / 153 in
  let d := doy - (153 * mp + 2) / 5 + 1 in
  let m := if mp <? 10 then mp + 3 else mp - 9 in
  let y := yoe + era * 400 + (if m <=? 2 then 1 else 0) in
  (y, m, d).

Definition Year (t : Time) : Z := fst (fst (civil (daysSinceEpoch t))).
Definition Month (t : Time) : Z := snd (fst (civil (daysSinceEpoch t))).
Definition Day (t : Time) : Z := snd (civil (daysSinceEpoch t)).
Definition Hour (t : Time) : Z := secOfDay t / 3600.
Definition Minute (t : Time) : Z := (secOfDay t mod 3600) / 60.
Definition Second (t : Time) : Z := secOfDay t mod 60.

Fixpoint zeros (n : nat) : string :=
  match n with
  | O => ""
  | S k => String "0" (zeros k)
  end.

(** [appendInt]: the decimal digits of [x], padded with zeros on the left
    to [width] digits, after a minus sign when [x] is negative. *)
Definition appendInt (x : Z) (width : nat) : string :=
  let digits := NilZero.string_of_uint (N.to_uint (Z.to_N (Z.abs x))) in
  (if x <? 0 then "-" else "")
    ++ zeros (width - String.length digits)%nat ++ digits.

(** [Format], for layouts made of the reference-time elements [2006]
    (year), [01] (month), [02] (day), [15] (hour), [04] (minute), [05]
    (second) and of characters that stand for themselves; [skip] counts
    the characters of an element already rendered.  A [Z] that no
    [07] follows is such a character: it is copied, and no zone
    conversion takes place. *)
Fixpoint formatFrom (t : Time) (layout : string) (skip : nat) : string :=
  match layout with
  | EmptyString => ""
  | String c rest =>
      match skip with
      | S k => formatFrom t rest k
      | O =>
          if prefix "2006" layout then appendInt (Year t) 4 ++ formatFrom t rest 3
          else if prefix "01" layout then appendInt (Month t) 2 ++ formatFrom t rest 1
          else if prefix "02" layout then appendInt (Day t) 2 ++ formatFrom t rest 1
          else if prefix "15" layout then appendInt (Hour t) 2 ++ formatFrom t rest 1
          else if prefix "04" layout then appendInt (Minute t) 2 ++ formatFrom t rest 1
          else if prefix "05" layout then appendInt (Second t) 2 ++ formatFrom t rest 1
          else String c (formatFrom t rest 0)
      end
  end.

Definition Format (t : Time) (layout : string) : string := formatFrom t layout 0.

End Time.

Definition formatTimestamp (t : Time.Time) : string :=
  let yyyyMMddHHmmss := "20060102T150405Z" in
  Time.Format t yyyyMMddHHmmss.

(** ** Slash-separated paths ([path], [path/filepath] on Unix, [strings]) *)

Module Filepath.

(** [strings.Split(s, "/")]. *)
Fixpoint splitSlash (s : string) : list string :=
  match s with
  | EmptyString => [""]
  | String c rest =>
      if (c =? "/")%char then "" :: splitSlash rest
      else match splitSlash rest with
           | x :: xs => String c x :: xs
           | [] => [String c ""]
           end
  end.

Definition IsAbs (path : string) : bool := prefix "/" path.

(** One element of the path against the elements kept so far (last one
    first): empty and [.] elements vanish, [..] removes the element before
    it, is dropped at the root, and is kept at the front of a relative
    path. *)
Definition cleanStep (rooted : bool) (out : list string) (elem : string)
    : list string :=
  if (elem =? "") || (elem =? ".") then out
  else if elem =? ".." then
    match out with
    | top :: out' => if top =? ".." then elem :: out else out'
    | [] => if rooted then [] else [elem]
    end
  else elem :: out.

(** [Clean]: the shortest path equivalent to [path] by lexical
    processing. *)
Definition Clean (path : string) : string :=
  if path =? "" then "."
  else
    let rooted := IsAbs path in
    let out := rev (fold_left (cleanStep rooted) (splitSlash path) []) in
    let body := String.concat "/" out in
    if rooted then "/" ++ body
    else if body =? "" then "." else body.

(** [Join]: leading empty elements are ignored, the others are joined by
    slashes and the result is cleaned. *)
Fixpoint Join (elem : list string) : string :=
  match elem with
  | [] => ""
  | e :: rest =>
      if e =? "" then Join rest else Clean (String.concat "/" elem)
  end.

(** [Abs], given the outcome of [os.Getwd]. *)
Definition Abs (getwd : string * error) (path : string) : string * error :=
  if IsAbs path then (Clean path, None)
  else
    match getwd with
    | (_, Some e) => ("", Some e)
    | (wd, None) => (Join [wd; path], None)
    end.

End Filepath.

Module Path.

(** The last element of [l] that is not empty. *)
Fixpoint lastElement (l : list string) : option string :=
  match l with
  | [] => None
  | x :: rest =>
      match lastElement rest with
      | Some y => Some y
      | None => if x =? "" then None else Some x
      end
  end.

(** [path.Base]: the last element of the path, trailing slashes
    removed; [.] for the empty path and [/] for a path of slashes. *)
Definition Base (path : string) : string :=
  if path =? "" then "."
  else match lastElement (Filepath.splitSlash path) with
       | Some e => e
       | None => "/"
       end.

End Path.

(** [strings.HasSuffix]. *)
Fixpoint strings_HasSuffix (s suffix : string) : bool :=
  if (s =? suffix)%string then true
  else match s with
       | EmptyString => false
       | String _ rest => strings_HasSuffix rest suffix
       end.

(** The last byte of a string, [s[len(s)-1]], when there is one. *)
Fixpoint lastByte (s : string) : option ascii :=
  match s with
  | EmptyString => None
  | String c rest =>
      match lastByte rest with
      | Some d => Some d
      | None => Some c
      end
  end.

(** [strings.TrimSuffix]. *)
Definition strings_TrimSuffix (s suffix : string) : string :=
  if strings_HasSuffix s suffix
  then substring 0 (String.length s - String.length suffix) s
  else s.

(** ** The commands and their collaborators *)

(** The packages [gitrepo] and [docker], the loader of the persisted state
    and the operating system are collaborators of [command.go]: the types
    they own are parameters, and each call to them is answered by an
    environment that may look at everything that happened before.  A run is
    the list of calls made, oldest first, each with its answer. *)
Section Command.

Variables Repository Status PipelineConfig Docker : Type.

(** The fields of [gitrepo.RepositoryOptions] that [command.go] sets; a
    field left out of a literal has its zero value. *)
Record RepositoryOptions : Type := {
  Dir : string;
  MaybeClone : bool;
  RemoteURL : string;
  CI : string
}.

(** The error of [os.Stat] as [createWorkRoot] tells it apart: [nil],
    an error that [os.IsNotExist] accepts, any other error (both with
    their text). *)
Inductive StatResult : Type :=
| StatOK
| StatNotExist (msg : string)
| StatFail (msg : string).

Inductive Event : Type :=
| EvNow (t : Time.Time)
| EvStat (name : string) (r : StatResult)
| EvMkdir (name : string) (perm : Z) (r : error)
| EvLog (msg : string) (attrs : list (string * string))
| EvNewRepository (opts : RepositoryOptions) (r : option Repository * error)
| EvIsClean (repo : option Repository) (r : bool * error)
| EvAddAll (repo : option Repository) (r : Status * error)
| EvCommit (repo : option Repository) (msg userName userEmail : string) (r : error)
| EvLoadRepoStateAndConfig (repo : option Repository)
    (r : option PipelineState * option PipelineConfig * error)
| EvDockerNew (workRoot image secretsProject uid gid : string)
    (config : option PipelineConfig) (r : option Docker * error).

Definition History : Type := list Event.

(** The collaborators.  [isUrl] and [loadRepoStateAndConfig] belong to
    this package but to files other than [command.go]; the temp root and the
    working directory are those of the process. *)
Record Env : Type := {
  isUrl : string -> bool;
  os_TempDir : string;
  os_Getwd : string * error;
  now : History -> Time.Time;
  stat : History -> string -> StatResult;
  mkdir : History -> string -> Z -> error;
  newRepository : History -> RepositoryOptions -> option Repository * error;
  isClean : History -> option Repository -> bool * error;
  addAll : History -> option Repository -> Status * error;
  statusIsClean : Status -> bool;
  commit : History -> option Repository -> string -> string -> string -> error;
  loadState : History -> option Repository
              -> option PipelineState * option PipelineConfig * error;
  dockerNew : History -> string -> string -> string -> string -> string
              -> option PipelineConfig -> option Docker * error
}.

(** Computations that extend the history. *)
Definition M (A : Type) : Type := History -> A * History.

Definition ret {A : Type} (a : A) : M A := fun h => (a, h).

Definition bind {A B : Type} (c : M A) (k : A -> M B) : M B :=
  fun h => let (a, h') := c h in k a h'.

(** One call: the environment answers from the history, and the call is
    recorded with its answer. *)
Definition call {A : Type} (answer : History -> A) (ev : A -> Event) : M A :=
  fun h => let r := answer h in (r, (h ++ [ev r])%list).

Notation "x <- c ;; k" := (bind c (fun x => k))
  (at level 61, c at next level, right associativity).
Notation "c ;;; k" := (bind c (fun _ => k))
  (at level 61, right associativity).

Variable env : Env.

Definition time_Now : M Time.Time := call (now env) EvNow.

Definition os_Stat (name : string) : M StatResult :=
  call (fun h => stat env h name) (EvStat name).

Definition os_Mkdir (name : string) (perm : Z) : M error :=
  call (fun h => mkdir env h name perm) (EvMkdir name perm).

Definition slog_Info (msg : string) (attrs : list (string * string)) : M unit :=
  fun h => (tt, (h ++ [EvLog msg attrs])%list).

Definition gitrepo_NewRepository (opts : RepositoryOptions)
    : M (option Repository * error) :=
  call (fun h => newRepository env h opts) (EvNewRepository opts).

Definition Repository_IsClean (repo : option Repository) : M (bool * error) :=
  call (fun h => isClean env h repo) (EvIsClean repo).

Definition Repository_AddAll (repo : option Repository) : M (Status * error) :=
  call (fun h => addAll env h repo) (EvAddAll repo).

Definition Repository_Commit (repo : option Repository)
    (msg userName userEmail : string) : M error :=
  call (fun h => commit env h repo msg userName userEmail)
       (EvCommit repo msg userName userEmail).

Definition loadRepoStateAndConfig (repo : option Repository)
    : M (option PipelineState * option PipelineConfig * error) :=
  call (fun h => loadState env h repo) (EvLoadRepoStateAndConfig repo).

Definition docker_New (workRoot image secretsProject uid gid : string)
    (config : option PipelineConfig) : M (option Docker * error) :=
  call (fun h => dockerNew env h workRoot image secretsProject uid gid config)
       (EvDockerNew workRoot image secretsProject uid gid config).

Record commandState : Type := {
  startTime : Time.Time;
  workRoot : string;
  languageRepo : option Repository;
  pipelineConfig : option PipelineConfig;
  pipelineState : option PipelineState;
  containerConfig : option Docker
}.

Definition cloneOrOpenLanguageRepo (workRoot repo ci : string)
    : M (option Repository * error) :=
  if repo =? "" then ret (None, errors_New "repo must be specified")
  else if isUrl env repo then
    let repoName := Path.Base (strings_TrimSuffix repo "/") in
    let repoPath := Filepath.Join [workRoot; repoName] in
    gitrepo_NewRepository
      {| Dir := repoPath; MaybeClone := true; RemoteURL := repo; CI := ci |}
  else
    match Filepath.Abs (os_Getwd env) repo with
    | (_, Some err) => ret (None, Some err)
    | (absRepoRoot, None) =>
        r <- gitrepo_NewRepository
               {| Dir := absRepoRoot; MaybeClone := false;
                  RemoteURL := ""; CI := ci |} ;;
        match r with
        | (_, Some err) => ret (None, Some err)
        | (languageRepo, None) =>
            c <- Repository_IsClean languageRepo ;;
            match c with
            | (_, Some err) => ret (None, Some err)
            | (clean, None) =>
                if negb clean
                then ret (None, errors_New "language repo must be clean")
                else ret (languageRepo, None)
            end
        end
    end.

(** The directory that [createWorkRoot] works on when there is no
    override. *)
Definition workRootPath (t : Time.Time) : string :=
  Filepath.Join [os_TempDir env; Fmt.Sprintf "librarian-%s" [formatTimestamp t]].

Definition createWorkRoot (t : Time.Time) (workRootOverride : string)
    : M (string * error) :=
  if negb (workRootOverride =? "") then
    slog_Info "Using specified working directory" [("dir", workRootOverride)] ;;;
    ret (workRootOverride, None)
  else
    let path := workRootPath t in
    r <- os_Stat path ;;
    match r with
    | StatNotExist _ =>
        err <- os_Mkdir path 493 ;;
        match err with
        | Some e =>
            ret ("", Fmt.Errorf
                       "unable to create temporary working directory '%s': %w"
                       [path; e])
        | None =>
            slog_Info "Temporary working directory" [("dir", path)] ;;;
            ret (path, None)
        end
    | StatOK =>
        ret ("", Fmt.Errorf "temporary working directory already exists: %s" [path])
    | StatFail e =>
        ret ("", Fmt.Errorf "unable to check directory '%s': %w" [path; e])
    end.

Definition createCommandStateForLanguage
    (workRootOverride repo language imageOverride defaultRepository
       secretsProject ci uid gid : string)
    : M (option commandState * error) :=
  startTime <- time_Now ;;
  r1 <- createWorkRoot startTime workRootOverride ;;
  match r1 with
  | (_, Some err) => ret (None, Some err)
  | (workRoot, None) =>
      r2 <- cloneOrOpenLanguageRepo workRoot repo ci ;;
      match r2 with
      | (_, Some err) => ret (None, Some err)
      | (languageRepo, None) =>
          r3 <- loadRepoStateAndConfig languageRepo ;;
          match r3 with
          | (_, Some err) => ret (None, Some err)
          | ((ps, config), None) =>
              let image := deriveImage language imageOverride defaultRepository ps in
              r4 <- docker_New workRoot image secretsProject uid gid config ;;
              match r4 with
              | (_, Some err) => ret (None, Some err)
              | (containerConfig, None) =>
                  let state :=
                    {| startTime := startTime;
                       workRoot := workRoot;
                       languageRepo := languageRepo;
                       pipelineConfig := config;
                       pipelineState := ps;
                       containerConfig := containerConfig |} in
                  ret (Some state, None)
              end
          end
      end
  end.

(** No commit is made if there are no file modifications. *)
Definition commitAll (repo : option Repository) (msg userName userEmail : string)
    : M error :=
  r <- Repository_AddAll repo ;;
  match r with
  | (_, Some err) => ret (Some err)
  | (status, None) =>
      if statusIsClean env status then
        slog_Info "No modifications to commit." [] ;;;
        ret None
      else Repository_Commit repo msg userName userEmail
  end.

(** The commits requested in a run: message, user name, user email. *)
Fixpoint commitsOf (h : History) : list (string * string * string) :=
  match h with
  | [] => []
  | EvCommit _ msg userName userEmail _ :: rest =>
      (msg, userName, userEmail) :: commitsOf rest
  | _ :: rest => commitsOf rest
  end.

(** The directories that a run asked to create. *)
Fixpoint mkdirsOf (h : History) : list string :=
  match h with
  | [] => []
  | EvMkdir name _ _ :: rest => name :: mkdirsOf rest
  | _ :: rest => mkdirsOf rest
  end.

(** The calls to [os.Stat] of a run. *)
Fixpoint statsOf (h : History) : list string :=
  match h with
  | [] => []
  | EvStat name _ :: rest => name :: statsOf rest
  | _ :: rest => statsOf rest
  end.

End Command.

Arguments EvNow {Repository Status PipelineConfig Docker} t.
Arguments EvStat {Repository Status PipelineConfig Docker} name r.
Arguments EvMkdir {Repository Status PipelineConfig Docker} name perm r.
Arguments EvLog {Repository Status PipelineConfig Docker} msg attrs.
Arguments EvNewRepository {Repository Status PipelineConfig Docker} opts r.
Arguments EvIsClean {Repository Status PipelineConfig Docker} repo r.
Arguments EvAddAll {Repository Status PipelineConfig Docker} repo r.
Arguments EvCommit {Repository Status PipelineConfig Docker} repo msg userName userEmail r.
Arguments EvLoadRepoStateAndConfig {Repository Status PipelineConfig Docker} repo r.
Arguments EvDockerNew {Repository Status PipelineConfig Docker}
  workRoot image secretsProject uid gid config r.
Arguments isUrl {Repository Status PipelineConfig Docker} e _.
Arguments os_TempDir {Repository Status PipelineConfig Docker} e.
Arguments os_Getwd {Repository Status PipelineConfig Docker} e.
Arguments now {Repository Status PipelineConfig Docker} e _.
Arguments stat {Repository Status PipelineConfig Docker} e _ _.
Arguments mkdir {Repository Status PipelineConfig Docker} e _ _ _.
Arguments newRepository {Repository Status PipelineConfig Docker} e _ _.
Arguments isClean {Repository Status PipelineConfig Docker} e _ _.
Arguments addAll {Repository Status PipelineConfig Docker} e _ _.
Arguments statusIsClean {Repository Status PipelineConfig Docker} e _.
Arguments commit {Repository Status PipelineConfig Docker} e _ _ _ _ _.
Arguments loadState {Repository Status PipelineConfig Docker} e _ _.
Arguments dockerNew {Repository Status PipelineConfig Docker} e _ _ _ _ _ _ _.
Arguments startTime {Repository PipelineConfig Docker} c.
Arguments workRoot {Repository PipelineConfig Docker} c.
Arguments languageRepo {Repository PipelineConfig Docker} c.
Arguments pipelineConfig {Repository PipelineConfig Docker} c.
Arguments pipelineState {Repository PipelineConfig Docker} c.
Arguments containerConfig {Repository PipelineConfig Docker} c.
Arguments workRootPath {Repository Status PipelineConfig Docker} env t.
Arguments createWorkRoot {Repository Status PipelineConfig Docker} env t workRootOverride _.
Arguments cloneOrOpenLanguageRepo {Repository Status PipelineConfig Docker}
  env workRoot repo ci _.
Arguments createCommandStateForLanguage {Repository Status PipelineConfig Docker}
  env workRootOverride repo language imageOverride defaultRepository
  secretsProject ci uid gid _.
Arguments commitAll {Repository Status PipelineConfig Docker}
  env repo msg userName userEmail _.
Arguments commitsOf {Repository Status PipelineConfig Docker} h.
Arguments mkdirsOf {Repository Status PipelineConfig Docker} h.
Arguments statsOf {Repository Status PipelineConfig Docker} h.

(** ** The stages of the assembler, as the design describes them *)

Section Assembly.

Context {Repository Status PipelineConfig Docker : Type}.
Variable env : Env Repository Status PipelineConfig Docker.
Variables workRootOverride repo language imageOverride defaultRepository
          secretsProject ci uid gid : string.

Let Hist : Type := History Repository Status PipelineConfig Docker.
Let State : Type := commandState Repository PipelineConfig Docker.

(** The history once the start time has been read. *)
Definition started (h : Hist) : Hist := (h ++ [EvNow (now env h)])%list.

(** The fixed pipeline: work root, repository, persisted state, container
    configuration.  A run from [h] ends either at the first stage that
    fails, with that stage's error, no state, and the history as that
    stage left it, or after the last stage, with the state made of what
    the stages returned and no error. *)
Inductive assembles (h : Hist) : option State * error -> Hist -> Prop :=
| WorkRootFails : forall x e h1,
    createWorkRoot env (now env h) workRootOverride (started h) = ((x, Some e), h1) ->
    assembles h (None, Some e) h1
| RepositoryFails : forall root h1 x e h2,
    createWorkRoot env (now env h) workRootOverride (started h) = ((root, None), h1) ->
    cloneOrOpenLanguageRepo env root repo ci h1 = ((x, Some e), h2) ->
    assembles h (None, Some e) h2
| StateFails : forall root h1 handle h2 x e,
    createWorkRoot env (now env h) workRootOverride (started h) = ((root, None), h1) ->
    cloneOrOpenLanguageRepo env root repo ci h1 = ((handle, None), h2) ->
    loadState env h2 handle = (x, Some e) ->
    assembles h (None, Some e)
      (h2 ++ [EvLoadRepoStateAndConfig handle (x, Some e)])%list
| ContainerFails : forall root h1 handle h2 ps config x e,
    createWorkRoot env (now env h) workRootOverride (started h) = ((root, None), h1) ->
    cloneOrOpenLanguageRepo env root repo ci h1 = ((handle, None), h2) ->
    loadState env h2 handle = ((ps, config), None) ->
    let h3 := (h2 ++ [EvLoadRepoStateAndConfig handle ((ps, config), None)])%list in
    let image := deriveImage language imageOverride defaultRepository ps in
    dockerNew env h3 root image secretsProject uid gid config = (x, Some e) ->
    assembles h (None, Some e)
      (h3 ++ [EvDockerNew root image secretsProject uid gid config (x, Some e)])%list
| Assembled : forall root h1 handle h2 ps config container,
    createWorkRoot env (now env h) workRootOverride (started h) = ((root, None), h1) ->
    cloneOrOpenLanguageRepo env root repo ci h1 = ((handle, None), h2) ->
    loadState env h2 handle = ((ps, config), None) ->
    let h3 := (h2 ++ [EvLoadRepoStateAndConfig handle ((ps, config), None)])%list in
    let image := deriveImage language imageOverride defaultRepository ps in
    dockerNew env h3 root image secretsProject uid gid config = (container, None) ->
    assembles h
      (Some {| startTime := now env h;
               workRoot := root;
               languageRepo := handle;
               pipelineConfig := config;
               pipelineState := ps;
               containerConfig := container |}, None)
      (h3 ++ [EvDockerNew root image secretsProject uid gid config (container, None)])%list.

End Assembly.

(** ** A sample environment *)

(** A repository handle is the directory it is bound to, a status the list
    of modified paths, a container configuration the image it runs. *)
Definition sampleState : PipelineState :=
  {| ImageTag := "v2";
     Libraries := [ {| Id := "speech"; ApiPaths := ["google/cloud/speech/v1"] |} ] |}.

(** A machine whose clock reads [clock], where the directories [existing]
    exist and where the work tree of every repository has the modified
    paths [modified]. *)
Definition sampleEnv (clock : Time.Time) (existing modified : list string)
    : Env string (list string) unit string :=
  {| isUrl := fun s => prefix "https://" s;
     os_TempDir := "/tmp";
     os_Getwd := ("/home/dev", None);
     now := fun _ => clock;
     stat := fun h name =>
       if slices_Contains (existing ++ mkdirsOf h)%list name then StatOK
       else StatNotExist ("stat " ++ name ++ ": no such file or directory");
     mkdir := fun h name _ =>
       if slices_Contains (existing ++ mkdirsOf h)%list name
       then Some ("mkdir " ++ name ++ ": file exists")
       else None;
     newRepository := fun _ opts => (Some (Dir opts), None);
     isClean := fun _ _ => (match modified with [] => true | _ => false end, None);
     addAll := fun _ _ => (modified, None);
     statusIsClean := fun st => match st with [] => true | _ => false end;
     commit := fun _ _ _ _ _ => None;
     loadState := fun _ _ => ((Some sampleState, Some tt), None);
     dockerNew := fun _ _ image _ _ _ _ => (Some image, None) |}.

(** Midnight of 2024-01-01 on a clock one hour east of UTC, that is
    2023-12-31 23:00:00 UTC. *)
Definition newYearCET : Time.Time :=
  {| Time.unixSec := 1704063600; Time.nsec := 0; Time.offset := 3600 |}.

(** ** The results file *)

(** The line feed that ends a record. *)
Definition newline : string := String (ascii_of_nat 10) "".

(** [appendToFile] belongs to this package but to a file other than
    [command.go]: it is a parameter, acting on the state of the file
    system. *)
Section ResultFile.

Variable FileSystem : Type.
Variable appendToFile : string -> string -> FileSystem -> error * FileSystem.

Definition appendResultEnvironmentVariable
    (workRoot name value envFileOverride : string)
    : FileSystem -> error * FileSystem :=
  let envFile :=
    if envFileOverride =? "" then Filepath.Join [workRoot; "env-vars.txt"]
    else envFileOverride in
  appendToFile envFile (Fmt.Sprintf ("%s=%s" ++ newline) [name; value]).

End ResultFile.

Arguments appendResultEnvironmentVariable {FileSystem} appendToFile
  workRoot name value envFileOverride _.

(** A file system that keeps, per file name, what was appended to it, in
    order; appending never fails. *)
Definition appendRecorded (filename content : string)
    (fs : list (string * string)) : error * list (string * string) :=
  (None, (fs ++ [(filename, content)])%list).

(** ** Bytes of a string *)

(** [strings.IndexByte(s, c) >= 0]. *)
Fixpoint containsByte (s : string) (c : ascii) : bool :=
  match s with
  | EmptyString => false
  | String x rest => if (x =? c)%char then true else containsByte rest c
  end.

(** A state with two libraries, the first of which owns two API paths. *)
Definition catalog : PipelineState :=
  {| ImageTag := "v3";
     Libraries :=
       [ {| Id := "speech";
            ApiPaths := ["google/cloud/speech/v1"; "google/cloud/speech/v2"] |};
         {| Id := "vision"; ApiPaths := ["google/cloud/vision/v1"] |} ] |}.

(** The sample machine with a temp root that refuses new directories. *)
Definition readOnlyEnv (clock : Time.Time) : Env string (list string) unit string :=
  let base := sampleEnv clock [] [] in
  {| isUrl := isUrl base;
     os_TempDir := os_TempDir base;
     os_Getwd := os_Getwd base;
     now := now base;
     stat := stat base;
     mkdir := fun _ name _ => Some ("mkdir " ++ name ++ ": permission denied");
     newRepository := newRepository base;
     isClean := isClean base;
     addAll := addAll base;
     statusIsClean := statusIsClean base;
     commit := commit base;
     loadState := loadState base;
     dockerNew := dockerNew base |}.

(** The sample machine with a temp root that cannot be inspected. *)
Definition unreadableEnv (clock : Time.Time) : Env string (list string) unit string :=
  let base := sampleEnv clock [] [] in
  {| isUrl := isUrl base;
     os_TempDir := os_TempDir base;
     os_Getwd := os_Getwd base;
     now := now base;
     stat := fun _ name => StatFail ("stat " ++ name ++ ": permission denied");
     mkdir := mkdir base;
     newRepository := newRepository base;
     isClean := isClean base;
     addAll := addAll base;
     statusIsClean := statusIsClean base;
     commit := commit base;
     loadState := loadState base;
     dockerNew := dockerNew base |}.

(** ** The ways in which the stages end *)

Section Outcomes.

Context {Repository Status PipelineConfig Docker : Type}.
Variable env : Env Repository Status PipelineConfig Docker.
Variable t : Time.Time.
Variable h : History Repository Status PipelineConfig Docker.

(** The five ways in which [createWorkRoot] ends. *)
Inductive workRootOutcome (override : string)
    : string * error -> History Repository Status PipelineConfig Docker -> Prop :=
| UsedOverride :
    override <> "" ->
    workRootOutcome override (override, None)
      (h ++ [EvLog "Using specified working directory" [("dir", override)]])%list
| Created : forall why,
    override = "" ->
    workRootOutcome override (workRootPath env t, None)
      (h ++ [EvStat (workRootPath env t) (StatNotExist why);
             EvMkdir (workRootPath env t) 493 None;
             EvLog "Temporary working directory" [("dir", workRootPath env t)]])%list
| NotCreated : forall why e,
    override = "" ->
    workRootOutcome override
      ("", Some ("unable to create temporary working directory '"
                   ++ workRootPath env t ++ "': " ++ e))
      (h ++ [EvStat (workRootPath env t) (StatNotExist why);
             EvMkdir (workRootPath env t) 493 (Some e)])%list
| AlreadyThere :
    override = "" ->
    workRootOutcome override
      ("", Some ("temporary working directory already exists: " ++ workRootPath env t))
      (h ++ [EvStat (workRootPath env t) StatOK])%list
| NotChecked : forall e,
    override = "" ->
    workRootOutcome override
      ("", Some ("unable to check directory '" ++ workRootPath env t ++ "': " ++ e))
      (h ++ [EvStat (workRootPath env t) (StatFail e)])%list.

End Outcomes.

(** The sample machine with repositories whose index cannot be written:
    staging fails. *)
Definition lockedIndexEnv (clock : Time.Time) : Env string (list string) unit string :=
  let base := sampleEnv clock [] ["a.go"] in
  {| isUrl := isUrl base;
     os_TempDir := os_TempDir base;
     os_Getwd := os_Getwd base;
     now := now base;
     stat := stat base;
     mkdir := mkdir base;
     newRepository := newRepository base;
     isClean := isClean base;
     addAll := fun _ _ => ([], Some "index.lock: file exists");
     statusIsClean := statusIsClean base;
     commit := commit base;
     loadState := loadState base;
     dockerNew := dockerNew base |}.

(** ** Reading a timestamp back *)

(** These definitions serve to state and prove that the timestamp keeps
    the wall clock second: a reader of decimal fields, the day count of a
    civil date, and the reader of a rendered timestamp. *)

(** The number that a string of decimal digits writes; -1 for any other
    string. *)
Definition atoi (s : string) : Z :=
  match NilZero.uint_of_string s with
  | Some u => Z.of_N (N.of_uint u)
  | None => (-1)%Z
  end.

(** [p] holds of the [n] integers from [z] on. *)
Fixpoint allFrom (n : nat) (z : Z) (p : Z -> bool) : bool :=
  match n with
  | O => true
  | S k => if p z then allFrom k (z + 1)%Z p else false
  end.

(** The field of [width] digits that renders [x] has [width] characters
    and reads back as [x]. *)
Definition fieldOK (width : nat) (x : Z) : bool :=
  (String.length (Time.appendInt x width) =? width)%nat
  && (atoi (Time.appendInt x width) =? x)%Z.

(** The days between 1970-01-01 and the civil date [y]-[m]-[d]. *)
Definition daysFromCivil (y m d : Z) : Z :=
  (let y' := if m <=? 2 then y - 1 else y in
   let era := y' / 400 in
   let yoe := y' - era * 400 in
   let mp := if m <=? 2 then m + 9 else m - 3 in
   let doy := (153 * mp + 2) / 5 + d - 1 in
   let doe := yoe * 365 + yoe / 4 - yoe / 100 + doy in
   era * 146097 + doe - 719468)%Z.

(** The wall clock second that a rendered timestamp shows. *)
Definition parseTimestamp (s : string) : Z :=
  (let year := atoi (substring 0 4 s) in
   let month := atoi (substring 4 2 s) in
   let day := atoi (substring 6 2 s) in
   let hour := atoi (substring 9 2 s) in
   let minute := atoi (substring 11 2 s) in
   let second := atoi (substring 13 2 s) in
   daysFromCivil year month day * 86400 + hour * 3600 + minute * 60 + second)%Z.

(** The sample machine on which opening a repository answers with a
    handle and an error at once. *)
Definition brokenRepoEnv (clock : Time.Time) : Env string (list string) unit string :=
  let base := sampleEnv clock [] [] in
  {| isUrl := isUrl base;
     os_TempDir := os_TempDir base;
     os_Getwd := os_Getwd base;
     now := now base;
     stat := stat base;
     mkdir := mkdir base;
     newRepository := fun _ opts => (Some (Dir opts), Some "repository does not exist");
     isClean := isClean base;
     addAll := addAll base;
     statusIsClean := statusIsClean base;
     commit := commit base;
     loadState := loadState base;
     dockerNew := dockerNew base |}.

(** * Properties *)

Section StringFacts.

Lemma append_nil_r (s : string) : s ++ "" = s.
Proof. induction s as [|c s IH]; simpl; [reflexivity | now rewrite IH]. Qed.

Lemma append_assoc (a b c : string) : (a ++ b) ++ c = a ++ (b ++ c).
Proof. induction a as [|x a IH]; simpl; [reflexivity | now rewrite IH]. Qed.

Lemma length_append (a b : string) :
  String.length (a ++ b) = (String.length a + String.length b)%nat.
Proof. induction a as [|x a IH]; simpl; [reflexivity | now rewrite IH]. Qed.

Lemma HasSuffix_refl (s : string) : strings_HasSuffix s s = true.
Proof. destruct s; cbn [strings_HasSuffix]; now rewrite String.eqb_refl. Qed.

Lemma HasSuffix_append (a b : string) : strings_HasSuffix (a ++ b) b = true.
Proof.
  induction a as [|x a IH].
  - apply HasSuffix_refl.
  - cbn [append strings_HasSuffix].
    destruct (String.eqb (String x (a ++ b)) b); [reflexivity | exact IH].
Qed.

Lemma HasSuffix_inv (s suffix : string) :
  strings_HasSuffix s suffix = true -> exists p, s = p ++ suffix.
Proof.
  induction s as [|x s IH]; cbn [strings_HasSuffix].
  - destruct (String.eqb_spec "" suffix) as [<-|]; [|discriminate].
    intros _. now exists "".
  - destruct (String.eqb_spec (String x s) suffix) as [<-|].
    + intros _. now exists "".
    + intros H. destruct (IH H) as [p ->]. now exists (String x p).
Qed.

Lemma lastByte_append (a b : string) :
  b <> "" -> lastByte (a ++ b) = lastByte b.
Proof.
  intros Hb. induction a as [|x a IH]; cbn [append lastByte].
  - reflexivity.
  - rewrite IH. destruct b as [|y b]; [contradiction|].
    cbn [lastByte]. now destruct (lastByte b).
Qed.

Lemma slices_Contains_In (s : list string) (v : string) :
  slices_Contains s v = true <-> In v s.
Proof.
  induction s as [|x s IH]; simpl.
  - split; [discriminate | tauto].
  - destruct (String.eqb_spec x v) as [->|Hne].
    + split; auto.
    + rewrite IH. split; [auto | intros [H|H]; [contradiction | exact H]].
Qed.

End StringFacts.

(** ** The runtime pieces on concrete inputs *)

Example Sprintf_three_operands :
  Fmt.Sprintf "%s/%s:%s" ["us"; "google-cloud-go-generator"; "v2"]
  = "us/google-cloud-go-generator:v2".
Proof. reflexivity. Qed.

Example Sprintf_missing_operand : Fmt.Sprintf "%s:%s" ["img"] = "img:%!s(MISSING)".
Proof. reflexivity. Qed.

Example Errorf_wraps :
  Fmt.Errorf "unable to check directory '%s': %w" ["/tmp/x"; "permission denied"]
  = Some "unable to check directory '/tmp/x': permission denied".
Proof. reflexivity. Qed.

Example formatTimestamp_reference :
  formatTimestamp {| Time.unixSec := 1735787045; Time.nsec := 0; Time.offset := 0 |}
  = "20250102T030405Z".
Proof. reflexivity. Qed.

Example formatTimestamp_leap_day :
  formatTimestamp {| Time.unixSec := 951868799; Time.nsec := 999; Time.offset := 0 |}
  = "20000229T235959Z".
Proof. reflexivity. Qed.

Example formatTimestamp_epoch :
  formatTimestamp {| Time.unixSec := 0; Time.nsec := 0; Time.offset := 0 |}
  = "19700101T000000Z".
Proof. reflexivity. Qed.

Example Clean_examples :
  map Filepath.Clean [""; "/"; "/.."; "a/.."; "../a"; "a/../.."; "//tmp//x/./y/../"; "/tmp/"]
  = ["."; "/"; "/"; "."; "../a"; ".."; "/tmp/x"; "/tmp"].
Proof. reflexivity. Qed.

Example Join_examples :
  map Filepath.Join [["/tmp"; "librarian-x"]; [""; "a"]; [""; ""]; ["a"; ""; "b"]; ["/tmp/"; "repo"]]
  = ["/tmp/librarian-x"; "a"; ""; "a/b"; "/tmp/repo"].
Proof. reflexivity. Qed.

Example Base_examples :
  map Path.Base [""; "/"; "a/b"; "a/b/"; "https://github.com/googleapis/google-cloud-go"]
  = ["."; "/"; "b"; "b"; "google-cloud-go"].
Proof. reflexivity. Qed.

Example TrimSuffix_examples :
  map (fun s => strings_TrimSuffix s "/") [""; "/"; "a/"; "a//"; "a"]
  = [""; ""; "a"; "a/"; "a"].
Proof. reflexivity. Qed.

Example formatReleaseTag_example : formatReleaseTag "lib-A" "1.2.3" = "lib-A-1.2.3".
Proof. reflexivity. Qed.

(** ** The release decision *)

Section ReleaseWorthiness.

Variable m : CommitMessage.
Variable L : string.

Lemma IsReleaseWorthy_rules :
  IsReleaseWorthy m L =
    if slices_Contains (NoTriggerLibraries m) L then false
    else if slices_Contains (TriggerLibraries m) L then true
    else (0 <? length (Features m))%nat || (0 <? length (Fixes m))%nat || Breaking m.
Proof. reflexivity. Qed.

Lemma not_Contains (s : list string) : ~ In L s -> slices_Contains s L = false.
Proof.
  intros H. destruct (slices_Contains s L) eqn:E; [|reflexivity].
  apply slices_Contains_In in E. contradiction.
Qed.

Lemma heuristic_true_iff :
  (0 <? length (Features m))%nat || (0 <? length (Fixes m))%nat || Breaking m = true
  <-> (length (Features m) > 0)%nat \/ (length (Fixes m) > 0)%nat \/ Breaking m = true.
Proof.
  rewrite !orb_true_iff, !Nat.ltb_lt. unfold gt. tauto.
Qed.

End ReleaseWorthiness.

(** The decision agrees with every row of [TestIsReleaseWorthy]. *)
Lemma IsReleaseWorthy_passes_its_tests : forallb caseHolds releaseCases = true.
Proof. vm_compute. reflexivity. Qed.

(** C1: a library listed in [NoTriggerLibraries] is never release worthy,
    whatever the features, fixes and breaking flag are, and also when the
    same library is listed in [TriggerLibraries]. *)
Theorem no_trigger_overrides (m : CommitMessage) (L : string) :
  In L (NoTriggerLibraries m) -> IsReleaseWorthy m L = false.
Proof.
  intros H. rewrite IsReleaseWorthy_rules.
  apply slices_Contains_In in H. now rewrite H.
Qed.

Lemma no_trigger_overrides_witness :
  In "lib-B" (TriggerLibraries (msgWith ["f"] ["x"] true ["lib-B"] ["lib-B"]))
  /\ IsReleaseWorthy (msgWith ["f"] ["x"] true ["lib-B"] ["lib-B"]) "lib-B" = false.
Proof.
  split.
  - simpl. left. reflexivity.
  - apply (no_trigger_overrides (msgWith ["f"] ["x"] true ["lib-B"] ["lib-B"]) "lib-B").
    simpl. left. reflexivity.
Defined.

(** C2: for a library outside [NoTriggerLibraries], membership in
    [TriggerLibraries] makes the message release worthy; outside both lists
    the decision is that of the heuristic (a feature, a fix or a breaking
    change); two messages that differ only in [Docs], [PiperOrigins],
    [SourceLinks] and [CommitHash] get the same decision; and the zero
    message is release worthy for no library. *)
Theorem trigger_then_heuristic (m : CommitMessage) (L : string) :
  (~ In L (NoTriggerLibraries m) -> In L (TriggerLibraries m) ->
   IsReleaseWorthy m L = true)
  /\ (~ In L (NoTriggerLibraries m) -> ~ In L (TriggerLibraries m) ->
      (IsReleaseWorthy m L = true
       <-> (length (Features m) > 0)%nat \/ (length (Fixes m) > 0)%nat
           \/ Breaking m = true))
  /\ (forall docs origins links hash,
        IsReleaseWorthy
          {| Features := Features m; Fixes := Fixes m; Breaking := Breaking m;
             Docs := docs; PiperOrigins := origins; SourceLinks := links;
             CommitHash := hash; TriggerLibraries := TriggerLibraries m;
             NoTriggerLibraries := NoTriggerLibraries m |} L
        = IsReleaseWorthy m L)
  /\ IsReleaseWorthy zeroCommitMessage L = false.
Proof.
  split; [|split; [|split]].
  - intros Hno Hyes. rewrite IsReleaseWorthy_rules, (not_Contains L _ Hno).
    apply slices_Contains_In in Hyes. now rewrite Hyes.
  - intros Hno Hnot.
    rewrite IsReleaseWorthy_rules, (not_Contains L _ Hno), (not_Contains L _ Hnot).
    apply heuristic_true_iff.
  - intros docs origins links hash. reflexivity.
  - reflexivity.
Qed.

Lemma trigger_then_heuristic_witness :
  IsReleaseWorthy (msgWith [] [] false ["lib-B"] ["lib-A"]) "lib-B" = true
  /\ (IsReleaseWorthy (msgWith ["new feature"] [] false ["lib-B"] ["lib-A"]) "lib-C" = true
      <-> (1 > 0)%nat \/ (0 > 0)%nat \/ false = true).
Proof.
  split.
  - apply (proj1 (trigger_then_heuristic (msgWith [] [] false ["lib-B"] ["lib-A"]) "lib-B")).
    + simpl. intros [H|[]]. discriminate H.
    + simpl. left. reflexivity.
  - apply (proj1 (proj2 (trigger_then_heuristic
                           (msgWith ["new feature"] [] false ["lib-B"] ["lib-A"]) "lib-C"))).
    + simpl. intros [H|[]]. discriminate H.
    + simpl. intros [H|[]]. discriminate H.
Defined.

(** ** The image deriver *)

Section Image.

Variables language defaultRepository : string.

Lemma relativeImage_eq :
  Fmt.Sprintf "google-cloud-%s-generator" [language]
  = "google-cloud-" ++ language ++ "-generator".
Proof. reflexivity. Qed.

Lemma image_without_repository (state : option PipelineState) :
  deriveImage language "" "" state
  = "google-cloud-" ++ language ++ "-generator:" ++ tagOf state.
Proof.
  unfold deriveImage. cbn [String.eqb negb].
  rewrite relativeImage_eq. fold (tagOf state).
  cbn [Fmt.Sprintf Fmt.doPrintf Ascii.eqb Bool.eqb Fmt.printsOperand orb andb Fmt.extra].
  rewrite append_nil_r. cbn [append]. rewrite append_assoc. reflexivity.
Qed.

Lemma image_with_repository (state : option PipelineState) :
  defaultRepository <> "" ->
  deriveImage language "" defaultRepository state
  = defaultRepository ++ "/google-cloud-" ++ language ++ "-generator:" ++ tagOf state.
Proof.
  intros Hrepo. unfold deriveImage. cbn [String.eqb negb].
  apply String.eqb_neq in Hrepo. rewrite Hrepo.
  rewrite relativeImage_eq. fold (tagOf state).
  cbn [Fmt.Sprintf Fmt.doPrintf Ascii.eqb Bool.eqb Fmt.printsOperand orb andb Fmt.extra].
  rewrite append_nil_r. cbn [append]. rewrite append_assoc. reflexivity.
Qed.

End Image.

(** C3: a non-empty override is returned as it is; without override the
    image is [google-cloud-<language>-generator:<tag>], where the tag is
    the one recorded in the state, or [latest] when the state is nil, and
    [<defaultRepository>/] is put in front exactly when the default
    repository is not empty. *)
Theorem deriveImage_spec (language imageOverride defaultRepository : string)
    (state : option PipelineState) :
  (imageOverride <> "" ->
   deriveImage language imageOverride defaultRepository state = imageOverride)
  /\ (imageOverride = "" ->
      let tag := match state with
                 | Some st => ImageTag st
                 | None => "latest"
                 end in
      let relativeImage := "google-cloud-" ++ language ++ "-generator:" ++ tag in
      (defaultRepository = "" ->
       deriveImage language imageOverride defaultRepository state = relativeImage)
      /\ (defaultRepository <> "" ->
          deriveImage language imageOverride defaultRepository state
          = defaultRepository ++ "/" ++ relativeImage)).
Proof.
  split.
  - intros Hover. unfold deriveImage.
    apply String.eqb_neq in Hover. now rewrite Hover.
  - intros -> tag relativeImage. split.
    + intros ->. apply image_without_repository.
    + intros Hrepo. apply image_with_repository. exact Hrepo.
Qed.

Lemma deriveImage_spec_witness :
  deriveImage "go" "img:1" "us" None = "img:1"
  /\ deriveImage "go" "" "" None = "google-cloud-go-generator:latest"
  /\ deriveImage "go" "" "us" (Some {| ImageTag := "v2"; Libraries := [] |})
     = "us/google-cloud-go-generator:v2".
Proof.
  split; [|split].
  - apply (proj1 (deriveImage_spec "go" "img:1" "us" None)). discriminate.
  - apply (proj2 (deriveImage_spec "go" "" "" None)); reflexivity.
  - apply (proj2 (deriveImage_spec "go" "" "us"
                    (Some {| ImageTag := "v2"; Libraries := [] |}))).
    + reflexivity.
    + discriminate.
Defined.

(** C9: with no override and a state that is not nil but records the empty
    tag, the image ends in a bare colon: [latest] is not substituted, and
    the image differs from the one derived from a nil state. *)
Theorem deriveImage_empty_tag (language defaultRepository : string)
    (st : PipelineState) :
  ImageTag st = "" ->
  let image := deriveImage language "" defaultRepository (Some st) in
  image = (if defaultRepository =? "" then "" else defaultRepository ++ "/")
            ++ "google-cloud-" ++ language ++ "-generator:"
  /\ strings_HasSuffix image ":" = true
  /\ strings_HasSuffix image ":latest" = false
  /\ image <> deriveImage language "" defaultRepository None.
Proof.
  intros Htag image.
  assert (Himage : image
                   = (if defaultRepository =? "" then "" else defaultRepository ++ "/")
                       ++ "google-cloud-" ++ language ++ "-generator:").
  { unfold image. destruct (String.eqb_spec defaultRepository "") as [->|Hrepo].
    - rewrite image_without_repository. cbn [tagOf]. now rewrite Htag.
    - rewrite (image_with_repository _ _ _ Hrepo). cbn [tagOf]. rewrite Htag.
      now rewrite append_assoc. }
  assert (Hcolon : exists p, image = p ++ ":").
  { exists ((if defaultRepository =? "" then "" else defaultRepository ++ "/")
              ++ "google-cloud-" ++ language ++ "-generator").
    rewrite Himage, !append_assoc. reflexivity. }
  destruct Hcolon as [p Hp].
  split; [exact Himage|]. split; [|split].
  - rewrite Hp. apply HasSuffix_append.
  - destruct (strings_HasSuffix image ":latest") eqn:E; [|reflexivity].
    apply HasSuffix_inv in E. destruct E as [q Hq].
    assert (Hlast : lastByte (p ++ ":") = lastByte (q ++ ":latest")) by congruence.
    rewrite !lastByte_append in Hlast by discriminate. discriminate Hlast.
  - intros Heq. apply (f_equal String.length) in Heq. revert Heq.
    rewrite Himage. destruct (String.eqb_spec defaultRepository "") as [->|Hrepo].
    + rewrite image_without_repository. cbn [tagOf].
      rewrite !length_append. cbn [String.length]. lia.
    + rewrite (image_with_repository _ _ _ Hrepo). cbn [tagOf].
      rewrite !length_append. cbn [String.length]. lia.
Qed.

Lemma deriveImage_empty_tag_witness :
  deriveImage "go" "" "" (Some {| ImageTag := ""; Libraries := [] |})
  = "google-cloud-go-generator:"
  /\ deriveImage "go" "" "us" (Some {| ImageTag := ""; Libraries := [] |})
     <> deriveImage "go" "" "us" None.
Proof.
  split.
  - apply (deriveImage_empty_tag "go" "" {| ImageTag := ""; Libraries := [] |}).
    reflexivity.
  - apply (deriveImage_empty_tag "go" "us" {| ImageTag := ""; Libraries := [] |}).
    reflexivity.
Defined.

(** ** Library lookup *)

Section Lookup.

Variable apiPath : string.

Lemma findLibraryIDIn_first_match (libraries : list LibraryState) :
  (exists before library after,
      libraries = (before ++ library :: after)%list
      /\ Forall (fun l => ~ In apiPath (ApiPaths l)) before
      /\ In apiPath (ApiPaths library)
      /\ findLibraryIDIn libraries apiPath = Id library)
  \/ (Forall (fun l => ~ In apiPath (ApiPaths l)) libraries
      /\ findLibraryIDIn libraries apiPath = "").
Proof.
  induction libraries as [|library rest IH]; cbn [findLibraryIDIn].
  - right. split; [constructor | reflexivity].
  - destruct (slices_Contains (ApiPaths library) apiPath) eqn:E.
    + left. exists [], library, rest. repeat split; try constructor.
      now apply slices_Contains_In.
    + assert (Hmiss : ~ In apiPath (ApiPaths library)).
      { intros Hin. apply slices_Contains_In in Hin. congruence. }
      destruct IH as [(before & found & after & -> & Hbefore & Hin & Hid) | [Hall Hnone]].
      * left. exists (library :: before), found, after.
        repeat split; auto.
      * right. split; [constructor; assumption | exact Hnone].
Qed.

End Lookup.

(** C10: on a state that is not nil, [findLibraryIDByApiPath] returns the
    id of the first library, in the order of the list, one of whose API
    paths is the given one, and the empty string when no library has it. *)
Theorem findLibraryIDByApiPath_first_match (state : PipelineState) (apiPath : string) :
  (exists before library after,
      Libraries state = (before ++ library :: after)%list
      /\ Forall (fun l => ~ In apiPath (ApiPaths l)) before
      /\ In apiPath (ApiPaths library)
      /\ findLibraryIDByApiPath state apiPath = Id library)
  \/ (Forall (fun l => ~ In apiPath (ApiPaths l)) (Libraries state)
      /\ findLibraryIDByApiPath state apiPath = "").
Proof.
  unfold findLibraryIDByApiPath.
  exact (findLibraryIDIn_first_match apiPath (Libraries state)).
Qed.

(** ** Work root, repository acquisition, assembly, commits *)

Section Runs.

Context {Repository Status PipelineConfig Docker : Type}.
Variable env : Env Repository Status PipelineConfig Docker.

Lemma commitsOf_app (h1 h2 : History Repository Status PipelineConfig Docker) :
  commitsOf (h1 ++ h2)%list = (commitsOf h1 ++ commitsOf h2)%list.
Proof.
  induction h1 as [|ev h1 IH]; [reflexivity|].
  destruct ev; cbn [app commitsOf]; rewrite IH; reflexivity.
Qed.

Lemma mkdirsOf_app (h1 h2 : History Repository Status PipelineConfig Docker) :
  mkdirsOf (h1 ++ h2)%list = (mkdirsOf h1 ++ mkdirsOf h2)%list.
Proof.
  induction h1 as [|ev h1 IH]; [reflexivity|].
  destruct ev; cbn [app mkdirsOf]; rewrite IH; reflexivity.
Qed.

Lemma workRootPath_eq (t : Time.Time) :
  workRootPath env t
  = Filepath.Join [os_TempDir env; "librarian-" ++ formatTimestamp t].
Proof.
  unfold workRootPath. do 2 f_equal.
  cbn [Fmt.Sprintf Fmt.doPrintf Ascii.eqb Bool.eqb Fmt.printsOperand orb andb Fmt.extra].
  now rewrite append_nil_r.
Qed.

(** Without override, on a path that does not exist yet and that
    [os.Mkdir] accepts, the work root is that path, created with mode
    0755. *)
Lemma createWorkRoot_fresh (t : Time.Time) (h : History Repository Status PipelineConfig Docker) (why : string) :
  let path := workRootPath env t in
  stat env h path = StatNotExist why ->
  mkdir env (h ++ [EvStat path (StatNotExist why)])%list path 493 = None ->
  createWorkRoot env t "" h
  = ((path, None),
     (h ++ [EvStat path (StatNotExist why)] ++ [EvMkdir path 493 None]
        ++ [EvLog "Temporary working directory" [("dir", path)]])%list).
Proof.
  intros path Hstat Hmkdir.
  unfold createWorkRoot, bind, os_Stat, os_Mkdir, slog_Info, call, ret.
  cbn [String.eqb negb]. fold path. rewrite Hstat, Hmkdir.
  now rewrite <- !app_assoc.
Qed.

(** With an override, the override is the work root and nothing is
    created. *)
Lemma createWorkRoot_override (t : Time.Time) (override : string) (h : History Repository Status PipelineConfig Docker) :
  override <> "" ->
  createWorkRoot env t override h
  = ((override, None),
     (h ++ [EvLog "Using specified working directory" [("dir", override)]])%list).
Proof.
  intros Hover. apply String.eqb_neq in Hover.
  unfold createWorkRoot, bind, slog_Info, ret. now rewrite Hover.
Qed.

End Runs.

(** C6: without override, when [os.Stat] finds the timestamped directory,
    [createWorkRoot] returns no path and the error that names the
    directory; the run is that single [os.Stat]: nothing is created, looked
    up again or reused. *)
Theorem createWorkRoot_existing_is_fatal
    {Repository Status PipelineConfig Docker : Type}
    (env : Env Repository Status PipelineConfig Docker)
    (t : Time.Time) (h : History Repository Status PipelineConfig Docker) :
  let path := workRootPath env t in
  stat env h path = StatOK ->
  createWorkRoot env t "" h
  = (("", Some ("temporary working directory already exists: " ++ path)),
     (h ++ [EvStat path StatOK])%list)
  /\ mkdirsOf (snd (createWorkRoot env t "" h)) = mkdirsOf h
  /\ statsOf (snd (createWorkRoot env t "" h)) = (statsOf h ++ [path])%list.
Proof.
  intros path Hstat.
  assert (Hrun : createWorkRoot env t "" h
                 = (("", Some ("temporary working directory already exists: " ++ path)),
                    (h ++ [EvStat path StatOK])%list)).
  { unfold createWorkRoot, bind, os_Stat, call, ret.
    cbn [String.eqb negb]. fold path. rewrite Hstat.
    unfold Fmt.Errorf.
    cbn [Fmt.Sprintf Fmt.doPrintf Ascii.eqb Bool.eqb Fmt.printsOperand orb andb Fmt.extra].
    now rewrite append_nil_r. }
  rewrite Hrun. cbn [snd]. split; [reflexivity|]. split.
  - rewrite mkdirsOf_app. cbn [mkdirsOf]. apply app_nil_r.
  - clear. induction h as [|ev h' IH]; [reflexivity|].
    destruct ev; cbn [app statsOf]; rewrite ?IH; reflexivity.
Qed.

Lemma createWorkRoot_existing_is_fatal_witness :
  createWorkRoot (sampleEnv newYearCET ["/tmp/librarian-20240101T000000Z"] [])
    newYearCET "" []
  = (("", Some "temporary working directory already exists: /tmp/librarian-20240101T000000Z"),
     [EvStat "/tmp/librarian-20240101T000000Z" StatOK]).
Proof.
  apply (createWorkRoot_existing_is_fatal
           (sampleEnv newYearCET ["/tmp/librarian-20240101T000000Z"] [])
           newYearCET []).
  vm_compute. reflexivity.
Defined.

(** ** The timestamp of the work directory *)

(** The layout renders year, month, day, a [T], hour, minute, second and a
    [Z], all taken from the wall clock of the value. *)
Lemma formatTimestamp_fields (t : Time.Time) :
  formatTimestamp t
  = Time.appendInt (Time.Year t) 4 ++ Time.appendInt (Time.Month t) 2
      ++ Time.appendInt (Time.Day t) 2 ++ "T"
      ++ Time.appendInt (Time.Hour t) 2 ++ Time.appendInt (Time.Minute t) 2
      ++ Time.appendInt (Time.Second t) 2 ++ "Z".
Proof. reflexivity. Qed.

(** On a value whose zone is UTC the rendering is the UTC one. *)
Lemma formatTimestamp_of_UTC_time (t : Time.Time) :
  Time.offset t = 0%Z -> formatTimestamp t = formatTimestamp (Time.UTC t).
Proof.
  intros H. destruct t as [u n o]. cbn in H. subst o. reflexivity.
Qed.

(** Two values of the same instant in different zones render differently:
    the rendering follows the zone of the value. *)
Lemma formatTimestamp_follows_zone :
  Time.unixSec newYearCET = Time.unixSec (Time.UTC newYearCET)
  /\ formatTimestamp newYearCET = "20240101T000000Z"
  /\ formatTimestamp (Time.UTC newYearCET) = "20231231T230000Z".
Proof. repeat split. Qed.

(** On a clock in UTC the fresh work directory lies under the temp root
    and is named after the UTC rendering of the start time. *)
Lemma createWorkRoot_on_UTC_clock
    {Repository Status PipelineConfig Docker : Type}
    (env : Env Repository Status PipelineConfig Docker)
    (t : Time.Time) (h : History Repository Status PipelineConfig Docker)
    (why : string) :
  Time.offset t = 0%Z ->
  let path := Filepath.Join [os_TempDir env;
                             "librarian-" ++ formatTimestamp (Time.UTC t)] in
  stat env h path = StatNotExist why ->
  mkdir env (h ++ [EvStat path (StatNotExist why)])%list path 493 = None ->
  fst (createWorkRoot env t "" h) = (path, None)
  /\ mkdirsOf (snd (createWorkRoot env t "" h)) = (mkdirsOf h ++ [path])%list.
Proof.
  intros Hutc path Hstat Hmkdir.
  assert (Hpath : workRootPath env t = path).
  { rewrite workRootPath_eq. unfold path.
    now rewrite (formatTimestamp_of_UTC_time t Hutc). }
  rewrite <- Hpath in Hstat, Hmkdir.
  rewrite (createWorkRoot_fresh env t h why Hstat Hmkdir), Hpath.
  cbn [fst snd]. split; [reflexivity|].
  rewrite !mkdirsOf_app. cbn [mkdirsOf app]. reflexivity.
Qed.

(** C7, on a clock that is not in UTC: at the instant 2023-12-31 23:00:00
    UTC, read on a clock one hour east of UTC, the work directory is named
    after the local wall clock, [librarian-20240101T000000Z], and not after
    the UTC rendering of the instant, [librarian-20231231T230000Z]. *)
Theorem createWorkRoot_names_after_local_clock :
  let env := sampleEnv newYearCET [] [] in
  fst (createWorkRoot env newYearCET "" [])
  = ("/tmp/librarian-20240101T000000Z", None)
  /\ mkdirsOf (snd (createWorkRoot env newYearCET "" []))
     = ["/tmp/librarian-20240101T000000Z"]
  /\ Filepath.Join [os_TempDir env;
                    "librarian-" ++ formatTimestamp (Time.UTC newYearCET)]
     = "/tmp/librarian-20231231T230000Z".
Proof. vm_compute. repeat split. Qed.

(** ** Repository acquisition *)

Section Acquisition.

Context {Repository Status PipelineConfig Docker : Type}.
Variable env : Env Repository Status PipelineConfig Docker.

Lemma Clean_rooted (path : string) :
  Filepath.IsAbs path = true -> Filepath.IsAbs (Filepath.Clean path) = true.
Proof.
  intros H. unfold Filepath.Clean.
  destruct (String.eqb_spec path "") as [->|_]; [discriminate H|].
  rewrite H.
  generalize (String.concat "/"
                (rev (fold_left (Filepath.cleanStep true)
                        (Filepath.splitSlash path) []))).
  intros body. unfold Filepath.IsAbs. cbn. destruct body; reflexivity.
Qed.

(** [filepath.Abs] yields a rooted path whenever the working directory
    is one. *)
Lemma Abs_rooted (path absRepoRoot : string) :
  Filepath.IsAbs (fst (os_Getwd env)) = true ->
  Filepath.Abs (os_Getwd env) path = (absRepoRoot, None) ->
  Filepath.IsAbs absRepoRoot = true.
Proof.
  intros Hwd. unfold Filepath.Abs.
  destruct (Filepath.IsAbs path) eqn:Hp.
  - intros [= <-]. now apply Clean_rooted.
  - destruct (os_Getwd env) as [wd [e|]]; [discriminate|].
    intros [= <-]. cbn [fst] in Hwd. cbn [Filepath.Join].
    destruct wd as [|c wd]; [discriminate Hwd|].
    cbn [String.eqb]. apply Clean_rooted.
    cbn [String.concat]. unfold Filepath.IsAbs in *.
    cbn [append prefix] in *.
    destruct (ascii_dec "/" c); [|discriminate Hwd].
    destruct (wd ++ String "/" path); reflexivity.
Qed.

End Acquisition.

(** C5: an empty locator is refused at once.  A locator that is not a URL
    is made absolute, the repository at that path is opened, and its
    cleanliness decides: a dirty repository is an error and no handle, a
    clean one gives the handle that was opened at the absolute path. *)
Theorem cloneOrOpenLanguageRepo_local
    {Repository Status PipelineConfig Docker : Type}
    (env : Env Repository Status PipelineConfig Docker)
    (workRoot repo ci : string)
    (h : History Repository Status PipelineConfig Docker) :
  cloneOrOpenLanguageRepo env workRoot "" ci h
  = ((None, Some "repo must be specified"), h)
  /\ (repo <> "" -> isUrl env repo = false ->
      forall absRepoRoot handle clean,
        Filepath.Abs (os_Getwd env) repo = (absRepoRoot, None) ->
        let opts := {| Dir := absRepoRoot; MaybeClone := false;
                       RemoteURL := ""; CI := ci |} in
        newRepository env h opts = (handle, None) ->
        let h1 := (h ++ [EvNewRepository opts (handle, None)])%list in
        isClean env h1 handle = (clean, None) ->
        (Filepath.IsAbs (fst (os_Getwd env)) = true ->
         Filepath.IsAbs absRepoRoot = true)
        /\ cloneOrOpenLanguageRepo env workRoot repo ci h
           = ((if clean then (handle, None)
               else (None, Some "language repo must be clean")),
              (h1 ++ [EvIsClean handle (clean, None)])%list)).
Proof.
  split; [reflexivity|].
  intros Hrepo Hurl absRepoRoot handle clean Habs opts Hopen h1 Hclean.
  split.
  - intros Hwd. exact (Abs_rooted env repo absRepoRoot Hwd Habs).
  - apply String.eqb_neq in Hrepo.
    unfold cloneOrOpenLanguageRepo. rewrite Hrepo, Hurl, Habs.
    unfold bind, gitrepo_NewRepository, Repository_IsClean, call, ret.
    fold opts. rewrite Hopen. fold h1. rewrite Hclean.
    destruct clean; reflexivity.
Qed.

Lemma cloneOrOpenLanguageRepo_local_witness :
  Filepath.IsAbs "/home/dev/repos/go" = true
  /\ cloneOrOpenLanguageRepo (sampleEnv newYearCET [] ["a.go"]) "/work" "repos/go" "ci" []
     = ((None, Some "language repo must be clean"),
        [EvNewRepository {| Dir := "/home/dev/repos/go"; MaybeClone := false;
                            RemoteURL := ""; CI := "ci" |}
           (Some "/home/dev/repos/go", None);
         EvIsClean (Some "/home/dev/repos/go") (false, None)]).
Proof.
  assert (H := proj2 (cloneOrOpenLanguageRepo_local
                        (sampleEnv newYearCET [] ["a.go"]) "/work" "repos/go" "ci" [])).
  specialize (H ltac:(discriminate) eq_refl
                "/home/dev/repos/go" (Some "/home/dev/repos/go") false
                eq_refl eq_refl eq_refl).
  destruct H as [Habs Hrun]. split; [exact (Habs eq_refl) | exact Hrun].
Defined.

Lemma cloneOrOpenLanguageRepo_clean_example :
  cloneOrOpenLanguageRepo (sampleEnv newYearCET [] []) "/work" "repos/go" "ci" []
  = ((Some "/home/dev/repos/go", None),
     [EvNewRepository {| Dir := "/home/dev/repos/go"; MaybeClone := false;
                         RemoteURL := ""; CI := "ci" |}
        (Some "/home/dev/repos/go", None);
      EvIsClean (Some "/home/dev/repos/go") (true, None)]).
Proof. reflexivity. Qed.

(** ** Commits *)

(** C8: [commitAll] stages everything; on a status without differences it
    returns nil, logs that there is nothing to commit and requests no
    commit; on a status with differences it requests one commit, with the
    message, user name and user email it was given, and returns what that
    commit returns. *)
Theorem commitAll_commits_once_or_not
    {Repository Status PipelineConfig Docker : Type}
    (env : Env Repository Status PipelineConfig Docker)
    (repo : option Repository) (msg userName userEmail : string)
    (h : History Repository Status PipelineConfig Docker) (status : Status) :
  addAll env h repo = (status, None) ->
  let h1 := (h ++ [EvAddAll repo (status, None)])%list in
  let run := commitAll env repo msg userName userEmail h in
  if statusIsClean env status
  then fst run = None
       /\ snd run = (h1 ++ [EvLog "No modifications to commit." []])%list
       /\ commitsOf (snd run) = commitsOf h
  else fst run = commit env h1 repo msg userName userEmail
       /\ snd run = (h1 ++ [EvCommit repo msg userName userEmail (fst run)])%list
       /\ commitsOf (snd run) = (commitsOf h ++ [(msg, userName, userEmail)])%list.
Proof.
  intros Hadd h1 run. subst run.
  unfold commitAll, bind, Repository_AddAll, Repository_Commit, slog_Info, call, ret.
  rewrite Hadd. fold h1.
  destruct (statusIsClean env status); cbn [fst snd].
  - repeat split. subst h1.
    rewrite !commitsOf_app. cbn [commitsOf]. now rewrite !app_nil_r.
  - repeat split. subst h1.
    rewrite !commitsOf_app. cbn [commitsOf]. now rewrite app_nil_r.
Qed.

Lemma commitAll_commits_once_or_not_witness :
  let env := sampleEnv newYearCET [] ["a.go"] in
  let run := commitAll env (Some "/r") "chore: regenerate" "bot" "bot@example.com" [] in
  fst run = None
  /\ snd run = [EvAddAll (Some "/r") (["a.go"], None);
                EvCommit (Some "/r") "chore: regenerate" "bot" "bot@example.com" None]
  /\ commitsOf (snd run) = [("chore: regenerate", "bot", "bot@example.com")].
Proof.
  exact (commitAll_commits_once_or_not
           (sampleEnv newYearCET [] ["a.go"]) (Some "/r")
           "chore: regenerate" "bot" "bot@example.com" [] ["a.go"] eq_refl).
Defined.

(** On an unchanged tree the same call requests no commit. *)
Lemma commitAll_unchanged_example :
  commitAll (sampleEnv newYearCET [] []) (Some "/r")
    "chore: regenerate" "bot" "bot@example.com" []
  = (None, [EvAddAll (Some "/r") ([], None);
            EvLog "No modifications to commit." []]).
Proof. reflexivity. Qed.

(** ** The command state assembler *)

(** C4: the assembler ends in one of the outcomes of the pipeline: the
    error of the first stage that fails, with no state, or the state built
    from what all four stages returned, with no error.  It never returns a
    state together with an error, nor neither of them. *)
Theorem createCommandStateForLanguage_all_or_error
    {Repository Status PipelineConfig Docker : Type}
    (env : Env Repository Status PipelineConfig Docker)
    (workRootOverride repo language imageOverride defaultRepository
       secretsProject ci uid gid : string)
    (h : History Repository Status PipelineConfig Docker) :
  let run := createCommandStateForLanguage env workRootOverride repo language
               imageOverride defaultRepository secretsProject ci uid gid h in
  assembles env workRootOverride repo language imageOverride defaultRepository
    secretsProject ci uid gid h (fst run) (snd run)
  /\ ((exists state, fst run = (Some state, None))
      \/ (exists err, fst run = (None, Some err))).
Proof.
  intros run. subst run.
  unfold createCommandStateForLanguage, bind, time_Now, loadRepoStateAndConfig,
    docker_New, call, ret.
  fold (started env h).
  destruct (createWorkRoot env (now env h) workRootOverride (started env h))
    as [[root [e1|]] h1] eqn:E1; cbn [fst snd].
  { split; [eapply WorkRootFails; eassumption | right; eauto]. }
  destruct (cloneOrOpenLanguageRepo env root repo ci h1)
    as [[handle [e2|]] h2] eqn:E2; cbn [fst snd].
  { split; [eapply RepositoryFails; eassumption | right; eauto]. }
  destruct (loadState env h2 handle) as [[ps config] [e3|]] eqn:E3; cbn [fst snd].
  { split; [eapply StateFails; eassumption | right; eauto]. }
  cbv zeta.
  destruct (dockerNew _ _ _ _ _ _ _ _)
    as [container [e4|]] eqn:E4; cbn [fst snd].
  { split; [eapply ContainerFails; eassumption | right; eauto]. }
  split; [eapply Assembled; eassumption | left; eauto].
Qed.

(** * Further properties of [command.go] *)

(** ** Lookup by id *)

Section LookupById.

Variable libraryID : string.

Lemma findLibraryIn_first_match (libraries : list LibraryState) :
  (exists before library after,
      libraries = (before ++ library :: after)%list
      /\ Forall (fun l => Id l <> libraryID) before
      /\ Id library = libraryID
      /\ findLibraryIn libraries libraryID = Some library)
  \/ (Forall (fun l => Id l <> libraryID) libraries
      /\ findLibraryIn libraries libraryID = None).
Proof.
  induction libraries as [|library rest IH]; cbn [findLibraryIn].
  - right. split; [constructor | reflexivity].
  - destruct (String.eqb_spec (Id library) libraryID) as [Heq|Hne].
    + left. exists [], library, rest. repeat split; try constructor. exact Heq.
    + destruct IH as [(before & found & after & -> & Hbefore & Hid & Hfound)
                     | [Hall Hnone]].
      * left. exists (library :: before), found, after. repeat split; auto.
      * right. split; [constructor; assumption | exact Hnone].
Qed.

End LookupById.

(** X1: [findLibraryByID] returns the first library of the list whose id
    is the given one, and nil exactly when no library has that id. *)
Theorem findLibraryByID_first_match (state : PipelineState) (libraryID : string) :
  (exists before library after,
      Libraries state = (before ++ library :: after)%list
      /\ Forall (fun l => Id l <> libraryID) before
      /\ Id library = libraryID
      /\ findLibraryByID state libraryID = Some library)
  \/ (Forall (fun l => Id l <> libraryID) (Libraries state)
      /\ findLibraryByID state libraryID = None).
Proof.
  unfold findLibraryByID.
  exact (findLibraryIn_first_match libraryID (Libraries state)).
Qed.

Lemma NoDup_ids_same_library (before after before' after' : list LibraryState)
    (library library' : LibraryState) :
  NoDup (map Id (before ++ library :: after)) ->
  (before ++ library :: after = before' ++ library' :: after')%list ->
  Id library = Id library' ->
  library = library'.
Proof.
  revert before'. induction before as [|x before IH]; intros before' Hnd Heq Hid.
  - destruct before' as [|y before'].
    + now injection Heq.
    + cbn in Heq. injection Heq as -> ->. cbn in Hnd.
      apply NoDup_cons_iff in Hnd. destruct Hnd as [Hnotin _].
      exfalso. apply Hnotin. rewrite Hid, map_app. apply in_or_app. right.
      now left.
  - destruct before' as [|y before'].
    + cbn in Heq. injection Heq as -> <-. cbn in Hnd.
      apply NoDup_cons_iff in Hnd. destruct Hnd as [Hnotin _].
      exfalso. apply Hnotin. rewrite <- Hid, map_app. apply in_or_app. right.
      now left.
    + cbn in Heq. injection Heq as -> Heq. cbn in Hnd.
      apply NoDup_cons_iff in Hnd. destruct Hnd as [_ Hnd].
      exact (IH before' Hnd Heq Hid).
Qed.

(** X2: when some library of the state has the API path, looking up by id
    the id that [findLibraryIDByApiPath] returns finds a library with that
    id; when the ids of the state are pairwise distinct, it is the library
    that has the API path. *)
Theorem lookup_by_path_then_by_id (state : PipelineState) (apiPath : string) :
  Exists (fun l => In apiPath (ApiPaths l)) (Libraries state) ->
  exists library,
    findLibraryByID state (findLibraryIDByApiPath state apiPath) = Some library
    /\ Id library = findLibraryIDByApiPath state apiPath
    /\ (NoDup (map Id (Libraries state)) -> In apiPath (ApiPaths library)).
Proof.
  intros Hsome. unfold findLibraryByID, findLibraryIDByApiPath.
  destruct (findLibraryIDIn_first_match apiPath (Libraries state))
    as [(before & owner & after & Hsplit & Hbefore & Hin & Hid) | [Hall _]].
  - destruct (findLibraryIn_first_match (Id owner) (Libraries state))
      as [(before' & found & after' & Hsplit' & _ & Hid' & Hfound) | [Hnone _]].
    + exists found. rewrite Hid. repeat split; auto.
      intros Hnd. rewrite Hsplit in Hnd, Hsplit'.
      now rewrite <- (NoDup_ids_same_library _ _ _ _ _ _ Hnd Hsplit' (eq_sym Hid')).
    + exfalso. rewrite Hsplit in Hnone. apply Forall_app in Hnone.
      destruct Hnone as [_ Hnone]. inversion Hnone as [|? ? Hne _]. now apply Hne.
  - exfalso. apply Exists_exists in Hsome. destruct Hsome as (l & Hl & Hin).
    rewrite Forall_forall in Hall. exact (Hall l Hl Hin).
Qed.

Lemma lookup_by_path_then_by_id_witness :
  exists library,
    findLibraryByID catalog (findLibraryIDByApiPath catalog "google/cloud/vision/v1")
    = Some library
    /\ Id library = findLibraryIDByApiPath catalog "google/cloud/vision/v1"
    /\ (NoDup (map Id (Libraries catalog)) ->
        In "google/cloud/vision/v1" (ApiPaths library)).
Proof.
  apply (lookup_by_path_then_by_id catalog "google/cloud/vision/v1").
  apply Exists_cons_tl. apply Exists_cons_hd. simpl. left. reflexivity.
Defined.

(** X3: when no library of the state has the empty id, the empty result
    of [findLibraryIDByApiPath] means that no library has the API path, and
    only that. *)
Theorem empty_id_means_no_owner (state : PipelineState) (apiPath : string) :
  Forall (fun l => Id l <> "") (Libraries state) ->
  (findLibraryIDByApiPath state apiPath = ""
   <-> Forall (fun l => ~ In apiPath (ApiPaths l)) (Libraries state)).
Proof.
  intros Hids. unfold findLibraryIDByApiPath.
  destruct (findLibraryIDIn_first_match apiPath (Libraries state))
    as [(before & owner & after & Hsplit & Hbefore & Hin & Hid) | [Hall Hnone]].
  - split.
    + intros Hempty. exfalso. rewrite Hsplit in Hids.
      apply Forall_app in Hids. destruct Hids as [_ Hids].
      inversion Hids as [|? ? Hne _]. apply Hne. congruence.
    + intros Hall. exfalso. rewrite Hsplit in Hall.
      apply Forall_app in Hall. destruct Hall as [_ Hall].
      inversion Hall as [|? ? Hmiss _]. exact (Hmiss Hin).
  - split; [intros _; exact Hall | intros _; exact Hnone].
Qed.

Lemma empty_id_means_no_owner_witness :
  findLibraryIDByApiPath catalog "google/cloud/translate/v3" = ""
  <-> Forall (fun l => ~ In "google/cloud/translate/v3" (ApiPaths l))
        (Libraries catalog).
Proof.
  apply (empty_id_means_no_owner catalog "google/cloud/translate/v3").
  repeat constructor; discriminate.
Defined.

(** Without that assumption the empty result is ambiguous: a library with
    the empty id that owns the path gives it too. *)
Lemma empty_id_is_ambiguous :
  findLibraryIDByApiPath
    {| ImageTag := ""; Libraries := [ {| Id := ""; ApiPaths := ["a/v1"] |} ] |}
    "a/v1" = "".
Proof. reflexivity. Qed.

(** ** Release tags *)

Section Tags.

Lemma containsByte_append (a b : string) (c : ascii) :
  containsByte (a ++ b) c = containsByte a c || containsByte b c.
Proof.
  induction a as [|x a IH]; cbn [append containsByte orb]; [reflexivity|].
  now destruct (Ascii.eqb x c).
Qed.

Lemma hyphen_in_tail (a v : string) :
  containsByte (a ++ String "-" v) "-" = true.
Proof.
  rewrite containsByte_append. cbn [append containsByte].
  rewrite Ascii.eqb_refl. apply orb_true_r.
Qed.

End Tags.

(** X4: a release tag determines the library id and the version, provided
    that versions hold no hyphen: two tags are equal only for equal ids and
    equal versions. *)
Theorem formatReleaseTag_injective (id1 version1 id2 version2 : string) :
  containsByte version1 "-" = false ->
  containsByte version2 "-" = false ->
  formatReleaseTag id1 version1 = formatReleaseTag id2 version2 ->
  id1 = id2 /\ version1 = version2.
Proof.
  unfold formatReleaseTag. intros Hv1 Hv2.
  revert id2. induction id1 as [|x id1 IH]; intros [|y id2] Heq.
  - cbn in Heq. injection Heq as Heq. now split.
  - cbn [append] in Heq. injection Heq as _ Heq.
    exfalso. rewrite Heq, hyphen_in_tail in Hv1. discriminate Hv1.
  - cbn [append] in Heq. injection Heq as _ Heq.
    exfalso. rewrite <- Heq, hyphen_in_tail in Hv2. discriminate Hv2.
  - cbn [append] in Heq. injection Heq as -> Heq.
    destruct (IH id2 Heq) as [-> ->]. now split.
Qed.

Lemma formatReleaseTag_injective_witness :
  "lib-A" = "lib-A" /\ "1.2.3" = "1.2.3".
Proof.
  apply (formatReleaseTag_injective "lib-A" "1.2.3" "lib-A" "1.2.3");
    reflexivity.
Defined.

(** With a hyphen in the version two different pairs share a tag. *)
Lemma formatReleaseTag_ambiguous :
  formatReleaseTag "lib" "A-1.0" = formatReleaseTag "lib-A" "1.0".
Proof. reflexivity. Qed.

(** ** The work root, case by case *)

Section WorkRoot.

Context {Repository Status PipelineConfig Docker : Type}.
Variable env : Env Repository Status PipelineConfig Docker.
Variable t : Time.Time.
Variable h : History Repository Status PipelineConfig Docker.

Lemma statsOf_app (h1 h2 : History Repository Status PipelineConfig Docker) :
  statsOf (h1 ++ h2)%list = (statsOf h1 ++ statsOf h2)%list.
Proof.
  induction h1 as [|ev h1 IH]; [reflexivity|].
  destruct ev; cbn [app statsOf]; rewrite IH; reflexivity.
Qed.

Lemma createWorkRoot_stat_fails (e : string) :
  stat env h (workRootPath env t) = StatFail e ->
  createWorkRoot env t "" h
  = (("", Some ("unable to check directory '" ++ workRootPath env t ++ "': " ++ e)),
     (h ++ [EvStat (workRootPath env t) (StatFail e)])%list).
Proof.
  intros Hstat. unfold createWorkRoot, bind, os_Stat, call, ret.
  cbn [String.eqb negb]. rewrite Hstat. unfold Fmt.Errorf.
  cbn [Fmt.doPrintf Ascii.eqb Bool.eqb Fmt.printsOperand orb andb Fmt.extra].
  now rewrite append_nil_r.
Qed.

Lemma createWorkRoot_mkdir_fails (why e : string) :
  stat env h (workRootPath env t) = StatNotExist why ->
  mkdir env (h ++ [EvStat (workRootPath env t) (StatNotExist why)])%list
    (workRootPath env t) 493 = Some e ->
  createWorkRoot env t "" h
  = (("", Some ("unable to create temporary working directory '"
                  ++ workRootPath env t ++ "': " ++ e)),
     (h ++ [EvStat (workRootPath env t) (StatNotExist why);
            EvMkdir (workRootPath env t) 493 (Some e)])%list).
Proof.
  intros Hstat Hmkdir. unfold createWorkRoot, bind, os_Stat, os_Mkdir, call, ret.
  cbn [String.eqb negb]. rewrite Hstat, Hmkdir. unfold Fmt.Errorf.
  cbn [Fmt.doPrintf Ascii.eqb Bool.eqb Fmt.printsOperand orb andb Fmt.extra].
  now rewrite append_nil_r, <- app_assoc.
Qed.

Lemma createWorkRoot_exists :
  stat env h (workRootPath env t) = StatOK ->
  createWorkRoot env t "" h
  = (("", Some ("temporary working directory already exists: " ++ workRootPath env t)),
     (h ++ [EvStat (workRootPath env t) StatOK])%list).
Proof.
  intros Hstat. unfold createWorkRoot, bind, os_Stat, call, ret.
  cbn [String.eqb negb]. rewrite Hstat. unfold Fmt.Errorf.
  cbn [Fmt.doPrintf Ascii.eqb Bool.eqb Fmt.printsOperand orb andb Fmt.extra].
  now rewrite append_nil_r.
Qed.

Lemma createWorkRoot_outcome (override : string) :
  workRootOutcome env t h override (fst (createWorkRoot env t override h))
    (snd (createWorkRoot env t override h)).
Proof.
  destruct (String.eqb_spec override "") as [->|Hover].
  - destruct (stat env h (workRootPath env t)) as [|why|e] eqn:Hstat.
    + rewrite (createWorkRoot_exists Hstat). now apply AlreadyThere.
    + destruct (mkdir env (h ++ [EvStat (workRootPath env t) (StatNotExist why)])%list
                  (workRootPath env t) 493) as [e|] eqn:Hmkdir.
      * rewrite (createWorkRoot_mkdir_fails why e Hstat Hmkdir). now apply NotCreated.
      * rewrite (createWorkRoot_fresh env t h why Hstat Hmkdir). cbn [fst snd app].
        now apply Created.
    + rewrite (createWorkRoot_stat_fails e Hstat). now apply NotChecked.
  - rewrite (createWorkRoot_override env t override h Hover). now apply UsedOverride.
Qed.

End WorkRoot.

(** X5: with an override, [createWorkRoot] returns the override as it is
    and neither inspects nor creates any directory: the override is not
    checked to exist. *)
Theorem createWorkRoot_override_touches_nothing
    {Repository Status PipelineConfig Docker : Type}
    (env : Env Repository Status PipelineConfig Docker)
    (t : Time.Time) (override : string)
    (h : History Repository Status PipelineConfig Docker) :
  override <> "" ->
  fst (createWorkRoot env t override h) = (override, None)
  /\ statsOf (snd (createWorkRoot env t override h)) = statsOf h
  /\ mkdirsOf (snd (createWorkRoot env t override h)) = mkdirsOf h.
Proof.
  intros Hover. rewrite (createWorkRoot_override env t override h Hover).
  cbn [fst snd]. rewrite statsOf_app, mkdirsOf_app. cbn [statsOf mkdirsOf].
  now rewrite !app_nil_r.
Qed.

Lemma createWorkRoot_override_touches_nothing_witness :
  fst (createWorkRoot (sampleEnv newYearCET [] []) newYearCET "/no/such/dir" [])
  = ("/no/such/dir", None)
  /\ statsOf (snd (createWorkRoot (sampleEnv newYearCET [] []) newYearCET
                     "/no/such/dir" [])) = []
  /\ mkdirsOf (snd (createWorkRoot (sampleEnv newYearCET [] []) newYearCET
                      "/no/such/dir" [])) = [].
Proof.
  apply (createWorkRoot_override_touches_nothing
           (sampleEnv newYearCET [] []) newYearCET "/no/such/dir" []).
  discriminate.
Defined.

(** X6: [createWorkRoot] never returns a path together with an error; a
    path returned without override is that of a directory that [os.Stat]
    did not find and that this very call created with mode 0755; and a call
    creates at most one directory, the timestamped one. *)
Theorem createWorkRoot_path_or_error
    {Repository Status PipelineConfig Docker : Type}
    (env : Env Repository Status PipelineConfig Docker)
    (t : Time.Time) (override : string)
    (h : History Repository Status PipelineConfig Docker) :
  let run := createWorkRoot env t override h in
  let path := workRootPath env t in
  (snd (fst run) <> None -> fst (fst run) = "")
  /\ (override = "" -> snd (fst run) = None ->
      fst (fst run) = path
      /\ exists why,
           snd run = (h ++ [EvStat path (StatNotExist why);
                            EvMkdir path 493 None;
                            EvLog "Temporary working directory" [("dir", path)]])%list)
  /\ (mkdirsOf (snd run) = mkdirsOf h
      \/ mkdirsOf (snd run) = (mkdirsOf h ++ [path])%list).
Proof.
  intros run path. subst run path.
  pose proof (createWorkRoot_outcome env t h override) as Hout.
  destruct (createWorkRoot env t override h) as [[p e] h'].
  cbn [fst snd] in *.
  inversion Hout as [Hover | why Hover | why e' Hover | Hover | e' Hover]; subst;
    rewrite ?mkdirsOf_app; cbn [mkdirsOf]; rewrite ?app_nil_r.
  - split; [congruence|]. split; [contradiction | now left].
  - split; [congruence|]. split; [|now right].
    intros _ _. split; [reflexivity | now exists why].
  - split; [reflexivity|]. split; [discriminate | now right].
  - split; [reflexivity|]. split; [discriminate | now left].
  - split; [reflexivity|]. split; [discriminate | now left].
Qed.

Lemma createWorkRoot_path_or_error_witness :
  fst (fst (createWorkRoot (sampleEnv newYearCET [] []) newYearCET "" []))
  = "/tmp/librarian-20240101T000000Z"
  /\ exists why,
       snd (createWorkRoot (sampleEnv newYearCET [] []) newYearCET "" [])
       = [EvStat "/tmp/librarian-20240101T000000Z" (StatNotExist why);
          EvMkdir "/tmp/librarian-20240101T000000Z" 493 None;
          EvLog "Temporary working directory"
            [("dir", "/tmp/librarian-20240101T000000Z")]].
Proof.
  exact (proj1 (proj2 (createWorkRoot_path_or_error
                         (sampleEnv newYearCET [] []) newYearCET "" []))
           eq_refl eq_refl).
Defined.

(** X7: when the timestamped directory cannot be inspected, or cannot be
    created, [createWorkRoot] returns an error whose text quotes the path
    and ends with the text of the underlying error; a directory that could
    not be inspected is not created. *)
Theorem createWorkRoot_failures_name_path_and_cause
    {Repository Status PipelineConfig Docker : Type}
    (env : Env Repository Status PipelineConfig Docker)
    (t : Time.Time) (h : History Repository Status PipelineConfig Docker) :
  let path := workRootPath env t in
  (forall e, stat env h path = StatFail e ->
     fst (createWorkRoot env t "" h)
     = ("", Some ("unable to check directory '" ++ path ++ "': " ++ e))
     /\ mkdirsOf (snd (createWorkRoot env t "" h)) = mkdirsOf h)
  /\ (forall why e, stat env h path = StatNotExist why ->
        mkdir env (h ++ [EvStat path (StatNotExist why)])%list path 493 = Some e ->
        fst (createWorkRoot env t "" h)
        = ("", Some ("unable to create temporary working directory '"
                       ++ path ++ "': " ++ e))).
Proof.
  intros path. subst path. split.
  - intros e Hstat. rewrite (createWorkRoot_stat_fails env t h e Hstat).
    cbn [fst snd]. split; [reflexivity|].
    rewrite mkdirsOf_app. cbn [mkdirsOf]. apply app_nil_r.
  - intros why e Hstat Hmkdir.
    now rewrite (createWorkRoot_mkdir_fails env t h why e Hstat Hmkdir).
Qed.

Lemma createWorkRoot_failures_name_path_and_cause_witness :
  fst (createWorkRoot (unreadableEnv newYearCET) newYearCET "" [])
  = ("", Some "unable to check directory '/tmp/librarian-20240101T000000Z': stat /tmp/librarian-20240101T000000Z: permission denied")
  /\ fst (createWorkRoot (readOnlyEnv newYearCET) newYearCET "" [])
     = ("", Some "unable to create temporary working directory '/tmp/librarian-20240101T000000Z': mkdir /tmp/librarian-20240101T000000Z: permission denied").
Proof.
  split.
  - exact (proj1 (proj1 (createWorkRoot_failures_name_path_and_cause
                           (unreadableEnv newYearCET) newYearCET [])
                    _ eq_refl)).
  - exact (proj2 (createWorkRoot_failures_name_path_and_cause
                    (readOnlyEnv newYearCET) newYearCET [])
             _ _ eq_refl eq_refl).
Defined.

Lemma Join_rooted (a b : string) :
  Filepath.IsAbs a = true -> Filepath.IsAbs (Filepath.Join [a; b]) = true.
Proof.
  intros Ha. destruct a as [|c a]; [discriminate Ha|].
  cbn [Filepath.Join String.eqb]. unfold Filepath.Clean.
  cbn [String.concat]. cbn [append String.eqb].
  assert (Hrooted : Filepath.IsAbs (String c (a ++ String "/" b)) = true).
  { unfold Filepath.IsAbs in *. cbn [prefix] in *.
    destruct (ascii_dec "/" c); [|discriminate Ha].
    destruct (a ++ String "/" b); reflexivity. }
  rewrite Hrooted.
  generalize (String.concat "/"
                (rev (fold_left (Filepath.cleanStep true)
                        (Filepath.splitSlash (String c (a ++ String "/" b))) []))).
  intros body. unfold Filepath.IsAbs. cbn. destruct body; reflexivity.
Qed.

(** X8: when the temp root of the process is a rooted path, so is the work
    root that [createWorkRoot] returns without override. *)
Theorem createWorkRoot_under_rooted_temp
    {Repository Status PipelineConfig Docker : Type}
    (env : Env Repository Status PipelineConfig Docker)
    (t : Time.Time) (h : History Repository Status PipelineConfig Docker) :
  Filepath.IsAbs (os_TempDir env) = true ->
  snd (fst (createWorkRoot env t "" h)) = None ->
  Filepath.IsAbs (fst (fst (createWorkRoot env t "" h))) = true.
Proof.
  intros Htemp Hok.
  pose proof (createWorkRoot_outcome env t h "") as Hout.
  destruct (createWorkRoot env t "" h) as [[p e] h'].
  cbn [fst snd] in *. subst e.
  inversion Hout as [Hover | why Hover | | |]; subst.
  - contradiction.
  - unfold workRootPath. now apply Join_rooted.
Qed.

Lemma createWorkRoot_under_rooted_temp_witness :
  Filepath.IsAbs
    (fst (fst (createWorkRoot (sampleEnv newYearCET [] []) newYearCET "" [])))
  = true.
Proof.
  apply (createWorkRoot_under_rooted_temp (sampleEnv newYearCET [] []) newYearCET []);
    reflexivity.
Defined.

(** ** Repository acquisition, all locators *)

Section Locators.

Context {Repository Status PipelineConfig Docker : Type}.
Variable env : Env Repository Status PipelineConfig Docker.
Variables workRoot repo ci : string.
Variable h : History Repository Status PipelineConfig Docker.

Lemma cloneOrOpenLanguageRepo_url :
  repo <> "" -> isUrl env repo = true ->
  let opts := {| Dir := Filepath.Join [workRoot; Path.Base (strings_TrimSuffix repo "/")];
                 MaybeClone := true; RemoteURL := repo; CI := ci |} in
  cloneOrOpenLanguageRepo env workRoot repo ci h
  = (newRepository env h opts,
     (h ++ [EvNewRepository opts (newRepository env h opts)])%list).
Proof.
  intros Hrepo Hurl opts. apply String.eqb_neq in Hrepo.
  unfold cloneOrOpenLanguageRepo. rewrite Hrepo, Hurl. reflexivity.
Qed.



End Locators.

(** X9: for a locator that is not a URL, [cloneOrOpenLanguageRepo] never
    returns a handle together with an error, and every handle it returns
    is the one that was opened at the absolute path of the locator and
    whose cleanliness check answered true just before the return. *)
Theorem local_handle_is_checked_clean
    {Repository Status PipelineConfig Docker : Type}
    (env : Env Repository Status PipelineConfig Docker)
    (workRoot repo ci : string)
    (h : History Repository Status PipelineConfig Docker) :
  isUrl env repo = false ->
  let run := cloneOrOpenLanguageRepo env workRoot repo ci h in
  (snd (fst run) <> None -> fst (fst run) = None)
  /\ (snd (fst run) = None ->
      exists absRepoRoot,
        Filepath.Abs (os_Getwd env) repo = (absRepoRoot, None)
        /\ snd run
           = (h ++ [EvNewRepository
                      {| Dir := absRepoRoot; MaybeClone := false;
                         RemoteURL := ""; CI := ci |}
                      (fst (fst run), None);
                    EvIsClean (fst (fst run)) (true, None)])%list).
Proof.
  intros Hurl run. subst run. unfold cloneOrOpenLanguageRepo.
  destruct (String.eqb_spec repo "") as [->|Hrepo].
  { cbn [ret fst snd]. split; [reflexivity | discriminate]. }
  rewrite Hurl.
  destruct (Filepath.Abs (os_Getwd env) repo) as [absRepoRoot [e|]] eqn:Habs.
  { cbn [ret fst snd]. split; [reflexivity | discriminate]. }
  unfold bind, gitrepo_NewRepository, Repository_IsClean, call, ret.
  destruct (newRepository env h _) as [handle [e|]] eqn:Hopen.
  { cbn [fst snd]. split; [reflexivity | discriminate]. }
  destruct (isClean env _ handle) as [clean [e|]] eqn:Hclean.
  { cbn [fst snd]. split; [reflexivity | discriminate]. }
  destruct clean; cbn [negb fst snd].
  - split; [congruence|]. intros _. exists absRepoRoot.
    split; [reflexivity|]. now rewrite <- app_assoc.
  - split; [reflexivity | discriminate].
Qed.

Lemma local_handle_is_checked_clean_witness :
  exists absRepoRoot,
    Filepath.Abs ("/home/dev", None) "repos/go" = (absRepoRoot, None)
    /\ snd (cloneOrOpenLanguageRepo (sampleEnv newYearCET [] []) "/work" "repos/go" "" [])
       = [EvNewRepository
            {| Dir := absRepoRoot; MaybeClone := false; RemoteURL := ""; CI := "" |}
            (Some "/home/dev/repos/go", None);
          EvIsClean (Some "/home/dev/repos/go") (true, None)].
Proof.
  exact (proj2 (local_handle_is_checked_clean
                  (sampleEnv newYearCET [] []) "/work" "repos/go" "" [] eq_refl)
           eq_refl).
Defined.

(** X10: for a URL locator, [cloneOrOpenLanguageRepo] makes one call,
    [gitrepo.NewRepository] with cloning allowed, the locator as remote URL
    and a directory of the work root named after the last element of the
    URL, and returns the answer of that call as it is; the clone is not
    checked for cleanliness. *)
Theorem url_locator_is_cloned_unchecked
    {Repository Status PipelineConfig Docker : Type}
    (env : Env Repository Status PipelineConfig Docker)
    (workRoot repo ci : string)
    (h : History Repository Status PipelineConfig Docker) :
  repo <> "" -> isUrl env repo = true ->
  let run := cloneOrOpenLanguageRepo env workRoot repo ci h in
  exists opts,
    Dir opts = Filepath.Join [workRoot; Path.Base (strings_TrimSuffix repo "/")]
    /\ MaybeClone opts = true /\ RemoteURL opts = repo /\ CI opts = ci
    /\ fst run = newRepository env h opts
    /\ snd run = (h ++ [EvNewRepository opts (fst run)])%list.
Proof.
  intros Hrepo Hurl run. subst run.
  rewrite (cloneOrOpenLanguageRepo_url env workRoot repo ci h Hrepo Hurl).
  exists {| Dir := Filepath.Join [workRoot; Path.Base (strings_TrimSuffix repo "/")];
            MaybeClone := true; RemoteURL := repo; CI := ci |}.
  cbn [fst snd Dir MaybeClone RemoteURL CI]. repeat split.
Qed.

Lemma url_locator_is_cloned_unchecked_witness :
  let env := sampleEnv newYearCET [] ["dirty.go"] in
  let run := cloneOrOpenLanguageRepo env "/work"
               "https://github.com/googleapis/google-cloud-go" "ci" [] in
  exists opts,
    Dir opts = "/work/google-cloud-go"
    /\ MaybeClone opts = true
    /\ RemoteURL opts = "https://github.com/googleapis/google-cloud-go"
    /\ CI opts = "ci"
    /\ fst run = newRepository env [] opts
    /\ snd run = [EvNewRepository opts (fst run)].
Proof.
  exact (url_locator_is_cloned_unchecked
           (sampleEnv newYearCET [] ["dirty.go"]) "/work"
           "https://github.com/googleapis/google-cloud-go" "ci" []
           ltac:(discriminate) eq_refl).
Defined.



(** ** Commits, whatever staging answers *)

(** X12: [commitAll] requests at most one commit; an error of the staging
    is returned as it is, after that single call; and a commit is requested
    only after a staging that succeeded with differences. *)
Theorem commitAll_commits_only_staged_changes
    {Repository Status PipelineConfig Docker : Type}
    (env : Env Repository Status PipelineConfig Docker)
    (repo : option Repository) (msg userName userEmail : string)
    (h : History Repository Status PipelineConfig Docker) :
  let run := commitAll env repo msg userName userEmail h in
  (forall status err, addAll env h repo = (status, Some err) ->
     run = (Some err, (h ++ [EvAddAll repo (status, Some err)])%list))
  /\ (commitsOf (snd run) = commitsOf h
      \/ commitsOf (snd run) = (commitsOf h ++ [(msg, userName, userEmail)])%list)
  /\ (commitsOf (snd run) <> commitsOf h ->
      exists status,
        addAll env h repo = (status, None) /\ statusIsClean env status = false).
Proof.
  intros run. subst run.
  unfold commitAll, bind, Repository_AddAll, Repository_Commit, slog_Info, call, ret.
  destruct (addAll env h repo) as [status [err|]] eqn:Hadd; cbn [fst snd].
  - rewrite commitsOf_app. cbn [commitsOf]. rewrite app_nil_r.
    split; [intros ? ? [= <- <-]; reflexivity|].
    split; [now left | intros Hne; now contradiction Hne].
  - destruct (statusIsClean env status) eqn:Hclean; cbn [fst snd];
      rewrite !commitsOf_app; cbn [commitsOf]; rewrite ?app_nil_r.
    + split; [discriminate|]. split; [now left | intros Hne; now contradiction Hne].
    + split; [discriminate|]. split; [now right | intros _; now exists status].
Qed.

Lemma commitAll_commits_only_staged_changes_witness :
  commitAll (lockedIndexEnv newYearCET) (Some "/r") "msg" "bot" "bot@example.com" []
  = (Some "index.lock: file exists",
     [EvAddAll (Some "/r") ([], Some "index.lock: file exists")])
  /\ exists status,
       addAll (sampleEnv newYearCET [] ["a.go"]) [] (Some "/r") = (status, None)
       /\ statusIsClean (sampleEnv newYearCET [] ["a.go"]) status = false.
Proof.
  split.
  - exact (proj1 (commitAll_commits_only_staged_changes
                    (lockedIndexEnv newYearCET) (Some "/r")
                    "msg" "bot" "bot@example.com" [])
             _ _ eq_refl).
  - apply (proj2 (proj2 (commitAll_commits_only_staged_changes
                           (sampleEnv newYearCET [] ["a.go"]) (Some "/r")
                           "msg" "bot" "bot@example.com" []))).
    discriminate.
Defined.

(** ** The assembler, stage by stage *)

Section Stages.

Context {Repository Status PipelineConfig Docker : Type}.
Variable env : Env Repository Status PipelineConfig Docker.
Variables workRootOverride repo language imageOverride defaultRepository
          secretsProject ci uid gid : string.
Variable h : History Repository Status PipelineConfig Docker.

Lemma createWorkRoot_commits (t : Time.Time) (override : string)
    (h0 : History Repository Status PipelineConfig Docker) :
  commitsOf (snd (createWorkRoot env t override h0)) = commitsOf h0.
Proof.
  pose proof (createWorkRoot_outcome env t h0 override) as Hout.
  destruct (createWorkRoot env t override h0) as [[p e] h'].
  cbn [fst snd] in *.
  inversion Hout; subst; rewrite commitsOf_app; cbn [commitsOf]; apply app_nil_r.
Qed.

Lemma cloneOrOpenLanguageRepo_commits (root : string)
    (h0 : History Repository Status PipelineConfig Docker) :
  commitsOf (snd (cloneOrOpenLanguageRepo env root repo ci h0)) = commitsOf h0.
Proof.
  unfold cloneOrOpenLanguageRepo.
  destruct (repo =? ""); [reflexivity|].
  destruct (isUrl env repo).
  { unfold gitrepo_NewRepository, call. cbn [snd].
    rewrite commitsOf_app. cbn [commitsOf]. apply app_nil_r. }
  destruct (Filepath.Abs (os_Getwd env) repo) as [absRepoRoot [e|]]; [reflexivity|].
  unfold bind, gitrepo_NewRepository, Repository_IsClean, call, ret.
  destruct (newRepository env h0 _) as [handle [e|]];
    [cbn [snd]; rewrite commitsOf_app; cbn [commitsOf]; apply app_nil_r|].
  destruct (isClean env _ handle) as [clean [e|]];
    [|destruct clean]; cbn [negb snd];
    rewrite !commitsOf_app; cbn [commitsOf]; now rewrite !app_nil_r.
Qed.

Lemma local_success_trace (root : string)
    (h0 h' : History Repository Status PipelineConfig Docker)
    (handle : option Repository) :
  isUrl env repo = false ->
  cloneOrOpenLanguageRepo env root repo ci h0 = ((handle, None), h') ->
  exists absRepoRoot,
    h' = (h0 ++ [EvNewRepository
                   {| Dir := absRepoRoot; MaybeClone := false;
                      RemoteURL := ""; CI := ci |} (handle, None);
                 EvIsClean handle (true, None)])%list.
Proof.
  intros Hurl. unfold cloneOrOpenLanguageRepo.
  destruct (repo =? ""); [discriminate|]. rewrite Hurl.
  destruct (Filepath.Abs (os_Getwd env) repo) as [absRepoRoot [e|]]; [discriminate|].
  unfold bind, gitrepo_NewRepository, Repository_IsClean, call, ret.
  destruct (newRepository env h0 _) as [opened [e|]]; [discriminate|].
  destruct (isClean env _ opened) as [clean [e|]]; [discriminate|].
  destruct clean; cbn [negb]; [|discriminate].
  intros [= <- <-]. exists absRepoRoot. now rewrite <- app_assoc.
Qed.

(** What a successful assembly went through. *)
Lemma assembler_success (state : commandState Repository PipelineConfig Docker)
    (h' : History Repository Status PipelineConfig Docker) :
  createCommandStateForLanguage env workRootOverride repo language imageOverride
    defaultRepository secretsProject ci uid gid h = ((Some state, None), h') ->
  exists h1 h2,
    startTime state = now env h
    /\ createWorkRoot env (now env h) workRootOverride (started env h)
       = ((workRoot state, None), h1)
    /\ cloneOrOpenLanguageRepo env (workRoot state) repo ci h1
       = ((languageRepo state, None), h2)
    /\ loadState env h2 (languageRepo state)
       = ((pipelineState state, pipelineConfig state), None)
    /\ h' = ((h2 ++ [EvLoadRepoStateAndConfig (languageRepo state)
                       ((pipelineState state, pipelineConfig state), None)])
               ++ [EvDockerNew (workRoot state)
                     (deriveImage language imageOverride defaultRepository
                        (pipelineState state))
                     secretsProject uid gid (pipelineConfig state)
                     (containerConfig state, None)])%list.
Proof.
  unfold createCommandStateForLanguage, bind, time_Now, loadRepoStateAndConfig,
    docker_New, call, ret.
  fold (started env h).
  destruct (createWorkRoot env (now env h) workRootOverride (started env h))
    as [[root [e1|]] h1] eqn:E1; [discriminate|].
  destruct (cloneOrOpenLanguageRepo env root repo ci h1)
    as [[handle [e2|]] h2] eqn:E2; [discriminate|].
  destruct (loadState env h2 handle) as [[ps config] [e3|]] eqn:E3; [discriminate|].
  cbv zeta.
  destruct (dockerNew _ _ _ _ _ _ _ _) as [container [e4|]] eqn:E4; [discriminate|].
  intros [= <- <-]. cbn [startTime workRoot languageRepo pipelineState
                          pipelineConfig containerConfig].
  exists h1, h2. repeat split; assumption.
Qed.

Lemma assembler_commits :
  commitsOf (snd (createCommandStateForLanguage env workRootOverride repo language
                    imageOverride defaultRepository secretsProject ci uid gid h))
  = commitsOf h.
Proof.
  unfold createCommandStateForLanguage, bind, time_Now, loadRepoStateAndConfig,
    docker_New, call, ret.
  fold (started env h).
  assert (Hstart : commitsOf (started env h) = commitsOf h).
  { unfold started. rewrite commitsOf_app. cbn [commitsOf]. apply app_nil_r. }
  pose proof (createWorkRoot_commits (now env h) workRootOverride (started env h)) as H1.
  destruct (createWorkRoot env (now env h) workRootOverride (started env h))
    as [[root [e1|]] h1]; cbn [snd] in *; [congruence|].
  pose proof (cloneOrOpenLanguageRepo_commits root h1) as H2.
  destruct (cloneOrOpenLanguageRepo env root repo ci h1)
    as [[handle [e2|]] h2]; cbn [snd] in *; [congruence|].
  destruct (loadState env h2 handle) as [[ps config] [e3|]];
    [cbn [snd]; rewrite commitsOf_app; cbn [commitsOf]; rewrite app_nil_r; congruence|].
  cbv zeta.
  destruct (dockerNew _ _ _ _ _ _ _ _) as [container [e4|]]; cbn [snd];
    rewrite !commitsOf_app; cbn [commitsOf]; rewrite !app_nil_r; congruence.
Qed.

End Stages.

(** X13: assembling the command state never requests a commit, whichever
    stage it stops at. *)
Theorem assembler_never_commits
    {Repository Status PipelineConfig Docker : Type}
    (env : Env Repository Status PipelineConfig Docker)
    (workRootOverride repo language imageOverride defaultRepository
       secretsProject ci uid gid : string)
    (h : History Repository Status PipelineConfig Docker) :
  commitsOf (snd (createCommandStateForLanguage env workRootOverride repo language
                    imageOverride defaultRepository secretsProject ci uid gid h))
  = commitsOf h.
Proof. apply assembler_commits. Qed.

(** X14: an empty repository locator makes the assembler fail, but only
    after the work root stage: when that stage succeeds the error is
    [repo must be specified] and the history is the one the work root stage
    left, so that without override the timestamped directory has been
    created and stays. *)
Theorem empty_locator_fails_after_work_root
    {Repository Status PipelineConfig Docker : Type}
    (env : Env Repository Status PipelineConfig Docker)
    (workRootOverride language imageOverride defaultRepository
       secretsProject ci uid gid : string)
    (h : History Repository Status PipelineConfig Docker) :
  let run := createCommandStateForLanguage env workRootOverride "" language
               imageOverride defaultRepository secretsProject ci uid gid h in
  (fst (fst run) = None /\ snd (fst run) <> None)
  /\ (forall root h1,
        createWorkRoot env (now env h) workRootOverride (started env h)
        = ((root, None), h1) ->
        run = ((None, Some "repo must be specified"), h1)
        /\ (workRootOverride = "" ->
            mkdirsOf h1 = (mkdirsOf h ++ [workRootPath env (now env h)])%list)).
Proof.
  intros run. subst run.
  unfold createCommandStateForLanguage, bind, time_Now, call, ret.
  fold (started env h).
  pose proof (createWorkRoot_outcome env (now env h) (started env h) workRootOverride)
    as Hout.
  destruct (createWorkRoot env (now env h) workRootOverride (started env h))
    as [[root [e1|]] h1] eqn:E1; cbn [fst snd] in *.
  - split; [split; [reflexivity | discriminate]|]. intros ? ? [=].
  - cbn [cloneOrOpenLanguageRepo String.eqb ret fst snd].
    split; [split; [reflexivity | discriminate]|].
    intros root' h1' [= <- <-]. split; [reflexivity|].
    intros ->. inversion Hout as [Hover | why _ | | |]; subst.
    + contradiction.
    + unfold started. rewrite !mkdirsOf_app. cbn [mkdirsOf app].
      now rewrite app_nil_r.
Qed.

Lemma empty_locator_fails_after_work_root_witness :
  createCommandStateForLanguage (sampleEnv newYearCET [] []) "" "" "go" "" "us"
    "proj" "" "1" "2" []
  = ((None, Some "repo must be specified"),
     [EvNow newYearCET;
      EvStat "/tmp/librarian-20240101T000000Z"
        (StatNotExist "stat /tmp/librarian-20240101T000000Z: no such file or directory");
      EvMkdir "/tmp/librarian-20240101T000000Z" 493 None;
      EvLog "Temporary working directory" [("dir", "/tmp/librarian-20240101T000000Z")]]).
Proof.
  exact (proj1 (proj2 (empty_locator_fails_after_work_root
                         (sampleEnv newYearCET [] []) "" "go" "" "us" "proj" "" "1" "2" [])
                  "/tmp/librarian-20240101T000000Z" _ eq_refl)).
Defined.

(** X15: in an assembled command state the start time is the one read at
    the beginning, the work root is the override or else the directory
    named after that same start time, and the container configuration is
    the answer to the last call of the run, [docker.New] on that work root,
    on the image derived from the pipeline state kept in the command state,
    and on the pipeline configuration kept there. *)
Theorem assembled_state_is_consistent
    {Repository Status PipelineConfig Docker : Type}
    (env : Env Repository Status PipelineConfig Docker)
    (workRootOverride repo language imageOverride defaultRepository
       secretsProject ci uid gid : string)
    (h : History Repository Status PipelineConfig Docker)
    (state : commandState Repository PipelineConfig Docker) :
  let run := createCommandStateForLanguage env workRootOverride repo language
               imageOverride defaultRepository secretsProject ci uid gid h in
  fst run = (Some state, None) ->
  startTime state = now env h
  /\ workRoot state
     = (if workRootOverride =? "" then workRootPath env (startTime state)
        else workRootOverride)
  /\ exists before,
       snd run
       = (before
            ++ [EvDockerNew (workRoot state)
                  (deriveImage language imageOverride defaultRepository
                     (pipelineState state))
                  secretsProject uid gid (pipelineConfig state)
                  (containerConfig state, None)])%list.
Proof.
  intros run Hrun. subst run.
  destruct (createCommandStateForLanguage env workRootOverride repo language
              imageOverride defaultRepository secretsProject ci uid gid h)
    as [r h'] eqn:E. cbn [fst snd] in *. subst r.
  destruct (assembler_success env _ _ _ _ _ _ _ _ _ h state h' E)
    as (h1 & h2 & Htime & Hroot & _ & _ & ->).
  split; [exact Htime|]. split; [|eexists; reflexivity].
  pose proof (createWorkRoot_outcome env (now env h) (started env h) workRootOverride)
    as Hout.
  rewrite Hroot in Hout. cbn [fst snd] in Hout. rewrite Htime.
  inversion Hout as [Hover | why Hover | | |]; subst.
  - apply String.eqb_neq in Hover. now rewrite Hover.
  - reflexivity.
Qed.

Lemma assembled_state_is_consistent_witness :
  exists state : commandState string unit string,
    fst (createCommandStateForLanguage (sampleEnv newYearCET [] []) "" "repos/go"
           "go" "" "us" "proj" "" "1" "2" []) = (Some state, None)
    /\ startTime state = newYearCET
    /\ workRoot state = "/tmp/librarian-20240101T000000Z"
    /\ containerConfig state = Some "us/google-cloud-go-generator:v2".
Proof.
  eexists. split; [reflexivity|].
  destruct (assembled_state_is_consistent
              (sampleEnv newYearCET [] []) "" "repos/go" "go" "" "us" "proj" "" "1" "2" []
              _ eq_refl) as (Htime & Hroot & _).
  split; [exact Htime|]. split; [exact Hroot | reflexivity].
Defined.

(** X16: when the locator is not a URL, an assembled command state holds a
    repository handle whose cleanliness check answered true during the run,
    and the pipeline state and configuration it holds are those loaded from
    that handle right after the check. *)
Theorem assembled_from_checked_repository
    {Repository Status PipelineConfig Docker : Type}
    (env : Env Repository Status PipelineConfig Docker)
    (workRootOverride repo language imageOverride defaultRepository
       secretsProject ci uid gid : string)
    (h : History Repository Status PipelineConfig Docker)
    (state : commandState Repository PipelineConfig Docker) :
  let run := createCommandStateForLanguage env workRootOverride repo language
               imageOverride defaultRepository secretsProject ci uid gid h in
  isUrl env repo = false ->
  fst run = (Some state, None) ->
  exists before after,
    snd run
    = (before
         ++ [EvIsClean (languageRepo state) (true, None);
             EvLoadRepoStateAndConfig (languageRepo state)
               ((pipelineState state, pipelineConfig state), None)]
         ++ after)%list.
Proof.
  intros run Hurl Hrun. subst run.
  destruct (createCommandStateForLanguage env workRootOverride repo language
              imageOverride defaultRepository secretsProject ci uid gid h)
    as [r h'] eqn:E. cbn [fst snd] in *. subst r.
  destruct (assembler_success env _ _ _ _ _ _ _ _ _ h state h' E)
    as (h1 & h2 & _ & _ & Hrepo & _ & ->).
  destruct (local_success_trace env repo ci (workRoot state) h1 h2
              (languageRepo state) Hurl Hrepo) as [absRepoRoot ->].
  eexists (h1 ++ [_])%list, [_].
  rewrite <- !app_assoc. cbn [app]. reflexivity.
Qed.

Lemma assembled_from_checked_repository_witness :
  exists (state : commandState string unit string) before after,
    snd (createCommandStateForLanguage (sampleEnv newYearCET [] []) "/work" "repos/go"
           "go" "" "us" "proj" "" "1" "2" [])
    = (before
         ++ [EvIsClean (languageRepo state) (true, None);
             EvLoadRepoStateAndConfig (languageRepo state)
               ((pipelineState state, pipelineConfig state), None)]
         ++ after)%list.
Proof.
  eexists.
  exact (assembled_from_checked_repository
           (sampleEnv newYearCET [] []) "/work" "repos/go" "go" "" "us" "proj" "" "1" "2" []
           _ eq_refl eq_refl).
Defined.

(** ** The timestamp keeps the wall clock second *)

Section Timestamps.

Local Open Scope Z_scope.

Lemma allFrom_sound (n : nat) (p : Z -> bool) :
  forall z, allFrom n z p = true ->
  forall i, z <= i < z + Z.of_nat n -> p i = true.
Proof.
  induction n as [|n IH]; intros z Hall i Hi.
  - lia.
  - cbn [allFrom] in Hall. destruct (p z) eqn:Hz; [|discriminate].
    destruct (Z.eq_dec i z) as [->|Hne]; [exact Hz|].
    apply (IH (z + 1) Hall). lia.
Qed.

Lemma two_digit_fields : allFrom 100 0 (fieldOK 2) = true.
Proof. vm_compute. reflexivity. Qed.

Lemma four_digit_fields : allFrom 10000 0 (fieldOK 4) = true.
Proof. vm_compute. reflexivity. Qed.

Lemma field2 (x : Z) :
  0 <= x <= 99 ->
  exists a b, Time.appendInt x 2 = String a (String b "")
              /\ atoi (String a (String b "")) = x.
Proof.
  intros Hx.
  assert (Hok : fieldOK 2 x = true).
  { apply (allFrom_sound 100 (fieldOK 2) 0 two_digit_fields).
    replace (Z.of_nat 100) with 100 by (vm_compute; reflexivity). lia. }
  unfold fieldOK in Hok. apply andb_prop in Hok. destruct Hok as [Hlen Hval].
  apply Nat.eqb_eq in Hlen. apply Z.eqb_eq in Hval.
  destruct (Time.appendInt x 2) as [|a [|b [|c s]]]; try discriminate Hlen.
  now exists a, b.
Qed.

Lemma field4 (x : Z) :
  0 <= x <= 9999 ->
  exists a b c d,
    Time.appendInt x 4 = String a (String b (String c (String d "")))
    /\ atoi (String a (String b (String c (String d "")))) = x.
Proof.
  intros Hx.
  assert (Hok : fieldOK 4 x = true).
  { apply (allFrom_sound 10000 (fieldOK 4) 0 four_digit_fields).
    replace (Z.of_nat 10000) with 10000 by (vm_compute; reflexivity). lia. }
  unfold fieldOK in Hok. apply andb_prop in Hok. destruct Hok as [Hlen Hval].
  apply Nat.eqb_eq in Hlen. apply Z.eqb_eq in Hval.
  destruct (Time.appendInt x 4) as [|a [|b [|c [|d [|e s]]]]]; try discriminate Hlen.
  now exists a, b, c, d.
Qed.

Lemma doe_bounds (z : Z) : 0 <= z - z / 146097 * 146097 <= 146096.
Proof. Z.to_euclidean_division_equations; lia. Qed.

Lemma yoe_doy_bounds (doe : Z) :
  0 <= doe <= 146096 ->
  let yoe := (doe - doe / 1460 + doe / 36524 - doe / 146096) / 365 in
  let doy := doe - (365 * yoe + yoe / 4 - yoe / 100) in
  0 <= yoe <= 399 /\ 0 <= doy <= 365.
Proof.
  intros H yoe doy. subst yoe doy.
  Z.to_euclidean_division_equations; lia.
Qed.

Lemma mp_d_bounds (doy : Z) :
  0 <= doy <= 365 ->
  let mp := (5 * doy + 2) / 153 in
  let d := doy - (153 * mp + 2) / 5 + 1 in
  0 <= mp <= 11 /\ 1 <= d <= 31.
Proof.
  intros H mp d. subst mp d.
  Z.to_euclidean_division_equations; lia.
Qed.

Lemma civil_round_trip (days : Z) :
  1 <= snd (fst (Time.civil days)) <= 12
  /\ 1 <= snd (Time.civil days) <= 31
  /\ daysFromCivil (fst (fst (Time.civil days))) (snd (fst (Time.civil days)))
       (snd (Time.civil days)) = days.
Proof.
  unfold Time.civil.
  set (z := days + 719468).
  set (era := z / 146097).
  set (doe := z - era * 146097).
  set (yoe := (doe - doe / 1460 + doe / 36524 - doe / 146096) / 365).
  set (doy := doe - (365 * yoe + yoe / 4 - yoe / 100)).
  set (mp := (5 * doy + 2) / 153).
  set (d := doy - (153 * mp + 2) / 5 + 1).
  cbv zeta. cbn [fst snd].
  pose proof (doe_bounds z) as Hdoe. fold era doe in Hdoe.
  pose proof (yoe_doy_bounds doe Hdoe) as Hy. cbv zeta in Hy. fold yoe doy in Hy.
  destruct Hy as [Hyoe Hdoy].
  pose proof (mp_d_bounds doy Hdoy) as Hm. cbv zeta in Hm. fold mp d in Hm.
  destruct Hm as [Hmp Hd].
  assert (Hmonth : 1 <= (if mp <? 10 then mp + 3 else mp - 9) <= 12).
  { destruct (Z.ltb_spec mp 10); lia. }
  split; [exact Hmonth|]. split; [exact Hd|].
  unfold daysFromCivil.
  destruct (Z.ltb_spec mp 10) as [Hlt|Hge].
  - destruct (Z.leb_spec (mp + 3) 2) as [Hle|Hgt]; [lia|].
    cbv zeta.
    replace (mp + 3 - 3) with mp by lia.
    replace ((yoe + era * 400 + 0) / 400) with era
      by (Z.to_euclidean_division_equations; lia).
    replace (yoe + era * 400 + 0 - era * 400) with yoe by lia.
    subst d doy doe z. lia.
  - destruct (Z.leb_spec (mp - 9) 2) as [Hle|Hgt]; [|lia].
    cbv zeta.
    replace (mp - 9 + 9) with mp by lia.
    replace ((yoe + era * 400 + 1 - 1) / 400) with era
      by (Z.to_euclidean_division_equations; lia).
    replace (yoe + era * 400 + 1 - 1 - era * 400) with yoe by lia.
    subst d doy doe z. lia.
Qed.

Lemma clock_fields (t : Time.Time) :
  0 <= Time.Hour t <= 23 /\ 0 <= Time.Minute t <= 59 /\ 0 <= Time.Second t <= 59
  /\ Time.daysSinceEpoch t * 86400 + Time.Hour t * 3600 + Time.Minute t * 60
       + Time.Second t = Time.wallSec t.
Proof.
  unfold Time.Hour, Time.Minute, Time.Second, Time.secOfDay, Time.daysSinceEpoch.
  generalize (Time.wallSec t). intros w.
  Z.to_euclidean_division_equations; lia.
Qed.

End Timestamps.


Lemma timestamp_layout (t : Time.Time) :
  (0 <= Time.Year t <= 9999)%Z ->
  String.length (formatTimestamp t) = 16%nat
  /\ substring 8 1 (formatTimestamp t) = "T"
  /\ substring 15 1 (formatTimestamp t) = "Z"
  /\ parseTimestamp (formatTimestamp t) = Time.wallSec t.
Proof.
  intros Hyear.
  destruct (civil_round_trip (Time.daysSinceEpoch t)) as (Hmonth & Hday & Hdays).
  fold (Time.Year t) (Time.Month t) (Time.Day t) in Hmonth, Hday, Hdays.
  destruct (clock_fields t) as (Hh & Hm & Hs & Hwall).
  destruct (field4 (Time.Year t) Hyear) as (y1 & y2 & y3 & y4 & Ey & Ay).
  destruct (field2 (Time.Month t) ltac:(lia)) as (m1 & m2 & Em & Am).
  destruct (field2 (Time.Day t) ltac:(lia)) as (d1 & d2 & Ed & Ad).
  destruct (field2 (Time.Hour t) ltac:(lia)) as (h1 & h2 & Eh & Ah).
  destruct (field2 (Time.Minute t) ltac:(lia)) as (i1 & i2 & Ei & Ai).
  destruct (field2 (Time.Second t) ltac:(lia)) as (s1 & s2 & Es & As).
  rewrite formatTimestamp_fields, Ey, Em, Ed, Eh, Ei, Es.
  unfold parseTimestamp. cbn [append substring String.length].
  repeat split.
  rewrite Ay, Am, Ad, Ah, Ai, As, Hdays. exact Hwall.
Qed.

Lemma formatTimestamp_of_wall_second (t1 t2 : Time.Time) :
  Time.wallSec t1 = Time.wallSec t2 -> formatTimestamp t1 = formatTimestamp t2.
Proof.
  intros H. rewrite !formatTimestamp_fields.
  unfold Time.Year, Time.Month, Time.Day, Time.Hour, Time.Minute, Time.Second,
    Time.daysSinceEpoch, Time.secOfDay.
  now rewrite H.
Qed.

(** X17: for a wall clock in the years 0 to 9999 the timestamp has exactly
    sixteen characters, with [T] in ninth and [Z] in last position. *)
Theorem timestamp_has_fixed_shape (t : Time.Time) :
  (0 <= Time.Year t <= 9999)%Z ->
  String.length (formatTimestamp t) = 16%nat
  /\ substring 8 1 (formatTimestamp t) = "T"
  /\ substring 15 1 (formatTimestamp t) = "Z".
Proof.
  intros Hyear. destruct (timestamp_layout t Hyear) as (Hlen & HT & HZ & _).
  now repeat split.
Qed.

Lemma timestamp_has_fixed_shape_witness :
  String.length (formatTimestamp newYearCET) = 16%nat
  /\ substring 8 1 (formatTimestamp newYearCET) = "T"
  /\ substring 15 1 (formatTimestamp newYearCET) = "Z".
Proof.
  apply (timestamp_has_fixed_shape newYearCET).
  change (Time.Year newYearCET) with 2024%Z. lia.
Defined.

(** Beyond the year 9999 the year takes five digits. *)
Lemma timestamp_of_year_10000 :
  formatTimestamp {| Time.unixSec := 253402300800; Time.nsec := 0; Time.offset := 0 |}
  = "100000101T000000Z".
Proof. reflexivity. Qed.

(** X18: for wall clocks in the years 0 to 9999, two start times get the
    same timestamp exactly when their wall clocks show the same second:
    nanoseconds are dropped, nothing else is lost, and the zone matters
    only through the wall clock. *)
Theorem same_timestamp_iff_same_wall_second (t1 t2 : Time.Time) :
  (0 <= Time.Year t1 <= 9999)%Z ->
  (0 <= Time.Year t2 <= 9999)%Z ->
  (formatTimestamp t1 = formatTimestamp t2 <-> Time.wallSec t1 = Time.wallSec t2).
Proof.
  intros H1 H2. split.
  - intros Heq.
    destruct (timestamp_layout t1 H1) as (_ & _ & _ & <-).
    destruct (timestamp_layout t2 H2) as (_ & _ & _ & <-).
    now rewrite Heq.
  - apply formatTimestamp_of_wall_second.
Qed.

Lemma same_timestamp_iff_same_wall_second_witness :
  formatTimestamp newYearCET
  = formatTimestamp {| Time.unixSec := 1704067200; Time.nsec := 999999999;
                       Time.offset := 0 |}
  <-> Time.wallSec newYearCET
      = Time.wallSec {| Time.unixSec := 1704067200; Time.nsec := 999999999;
                        Time.offset := 0 |}.
Proof.
  apply (same_timestamp_iff_same_wall_second newYearCET
           {| Time.unixSec := 1704067200; Time.nsec := 999999999; Time.offset := 0 |}).
  - change (Time.Year newYearCET) with 2024%Z. lia.
  - change (Time.Year {| Time.unixSec := 1704067200; Time.nsec := 999999999;
                         Time.offset := 0 |}) with 2024%Z. lia.
Defined.

(** ** Records of the results file *)

Section Records.

Lemma record_line (name value : string) :
  Fmt.Sprintf ("%s=%s" ++ newline) [name; value] = name ++ "=" ++ value ++ newline.
Proof.
  unfold Fmt.Sprintf, newline.
  cbn [append Fmt.doPrintf Ascii.eqb Bool.eqb Fmt.printsOperand orb andb Fmt.extra].
  reflexivity.
Qed.

Lemma append_cancel_r (a b c : string) : a ++ c = b ++ c -> a = b.
Proof.
  revert b. induction a as [|x a IH]; intros [|y b] H.
  - reflexivity.
  - exfalso. apply (f_equal String.length) in H.
    cbn [append String.length] in H. rewrite length_append in H. lia.
  - exfalso. apply (f_equal String.length) in H.
    cbn [append String.length] in H. rewrite length_append in H. lia.
  - cbn [append] in H. injection H as -> H. now rewrite (IH b H).
Qed.

Lemma split_at_first (c : ascii) (n1 r1 n2 r2 : string) :
  containsByte n1 c = false -> containsByte n2 c = false ->
  n1 ++ String c r1 = n2 ++ String c r2 ->
  n1 = n2 /\ r1 = r2.
Proof.
  revert n2. induction n1 as [|x n1 IH]; intros [|y n2] H1 H2 Heq.
  - cbn [append] in Heq. injection Heq as ->. now split.
  - cbn [append] in Heq. injection Heq as <- _.
    cbn [containsByte] in H2. now rewrite Ascii.eqb_refl in H2.
  - cbn [append] in Heq. injection Heq as -> _.
    cbn [containsByte] in H1. now rewrite Ascii.eqb_refl in H1.
  - cbn [append] in Heq. injection Heq as -> Heq.
    cbn [containsByte] in H1, H2.
    destruct (Ascii.eqb y c); [discriminate H1|].
    destruct (IH n2 H1 H2 Heq) as [-> ->]. now split.
Qed.

End Records.

(** X19: the record that [appendResultEnvironmentVariable] appends is the
    line [name=value] ended by a line feed, and for names without an equals
    sign the line determines the name and the value: on a file system that
    keeps what is appended, two calls leave the same content only for the
    same name and the same value. *)
Theorem result_record_determines_pair
    (workRoot envFileOverride name1 value1 name2 value2 : string)
    (fs : list (string * string)) :
  containsByte name1 "=" = false ->
  containsByte name2 "=" = false ->
  appendResultEnvironmentVariable appendRecorded workRoot name1 value1
    envFileOverride fs
  = appendResultEnvironmentVariable appendRecorded workRoot name2 value2
      envFileOverride fs ->
  name1 = name2 /\ value1 = value2.
Proof.
  intros H1 H2. unfold appendResultEnvironmentVariable, appendRecorded.
  rewrite !record_line. intros [= Heq].
  apply app_inv_head in Heq. injection Heq as Heq.
  cbn [append] in Heq.
  destruct (split_at_first "=" _ _ _ _ H1 H2 Heq) as [-> Hrest].
  split; [reflexivity|]. exact (append_cancel_r _ _ _ Hrest).
Qed.

Lemma result_record_determines_pair_witness :
  "_RELEASE_ID" = "_RELEASE_ID" /\ "release-1" = "release-1".
Proof.
  apply (result_record_determines_pair "/work" "" "_RELEASE_ID" "release-1"
           "_RELEASE_ID" "release-1" []); reflexivity.
Defined.

(** The record and the file it goes to, for any [appendToFile]. *)
Lemma appendResultEnvironmentVariable_call {FileSystem : Type}
    (appendToFile : string -> string -> FileSystem -> error * FileSystem)
    (workRoot name value envFileOverride : string) (fs : FileSystem) :
  appendResultEnvironmentVariable appendToFile workRoot name value envFileOverride fs
  = appendToFile
      (if envFileOverride =? "" then Filepath.Join [workRoot; "env-vars.txt"]
       else envFileOverride)
      (name ++ "=" ++ value ++ newline) fs.
Proof. unfold appendResultEnvironmentVariable. now rewrite record_line. Qed.

Example appendResultEnvironmentVariable_example :
  appendResultEnvironmentVariable appendRecorded "/tmp/w" "_RELEASE_ID" "r1" "" []
  = (None, [("/tmp/w/env-vars.txt", "_RELEASE_ID=r1" ++ newline)]).
Proof. reflexivity. Qed.

(** ** The name of the work directory *)

Section BaseName.

Lemma digits_no_slash (u : Decimal.uint) :
  containsByte (NilEmpty.string_of_uint u) "/" = false.
Proof. induction u; cbn [NilEmpty.string_of_uint containsByte]; auto. Qed.

Lemma decimal_no_slash (u : Decimal.uint) :
  containsByte (NilZero.string_of_uint u) "/" = false.
Proof.
  unfold NilZero.string_of_uint.
  destruct u; try apply digits_no_slash. reflexivity.
Qed.

Lemma zeros_no_slash (n : nat) : containsByte (Time.zeros n) "/" = false.
Proof. induction n; cbn [Time.zeros containsByte]; auto. Qed.

Lemma appendInt_no_slash (x : Z) (width : nat) :
  containsByte (Time.appendInt x width) "/" = false.
Proof.
  unfold Time.appendInt. rewrite !containsByte_append.
  rewrite zeros_no_slash, decimal_no_slash. now destruct (x <? 0)%Z.
Qed.

Lemma formatTimestamp_no_slash (t : Time.Time) :
  containsByte (formatTimestamp t) "/" = false.
Proof.
  rewrite formatTimestamp_fields, !containsByte_append, !appendInt_no_slash.
  reflexivity.
Qed.

Lemma splitSlash_plain (s : string) :
  containsByte s "/" = false -> Filepath.splitSlash s = [s].
Proof.
  induction s as [|c s IH]; cbn [containsByte Filepath.splitSlash]; [reflexivity|].
  destruct (Ascii.eqb c "/"); [discriminate|]. intros H. now rewrite (IH H).
Qed.

Lemma splitSlash_app (a b : string) :
  Filepath.splitSlash (a ++ String "/" b)
  = (Filepath.splitSlash a ++ Filepath.splitSlash b)%list.
Proof.
  induction a as [|c a IH]; cbn [append Filepath.splitSlash].
  - reflexivity.
  - destruct (Ascii.eqb c "/"); rewrite IH; [reflexivity|].
    destruct (Filepath.splitSlash a) as [|x xs] eqn:E; [|reflexivity].
    exfalso. destruct a as [|d a]; cbn [Filepath.splitSlash] in E; [discriminate|].
    destruct (Ascii.eqb d "/"); [discriminate|].
    destruct (Filepath.splitSlash a); discriminate.
Qed.

Lemma concat_snoc (l : list string) (name : string) :
  String.concat "/" (l ++ [name])
  = match l with
    | [] => name
    | _ :: _ => String.concat "/" l ++ String "/" name
    end.
Proof.
  induction l as [|x l IH]; [reflexivity|].
  cbn [app]. destruct l as [|y l].
  - reflexivity.
  - change (String.concat "/" (x :: (y :: l) ++ [name]))
      with (x ++ "/" ++ String.concat "/" ((y :: l) ++ [name])).
    rewrite IH.
    change (String.concat "/" (x :: y :: l))
      with (x ++ "/" ++ String.concat "/" (y :: l)).
    now rewrite !append_assoc.
Qed.

Lemma lastElement_snoc (l : list string) (name : string) :
  name <> "" -> Path.lastElement (l ++ [name]) = Some name.
Proof.
  intros Hname. induction l as [|x l IH]; cbn [app Path.lastElement].
  - apply String.eqb_neq in Hname. now rewrite Hname.
  - now rewrite IH.
Qed.

Variable name : string.
Hypothesis plain : containsByte name "/" = false.
Hypothesis letter : exists c rest, name = String c rest /\ c <> "."%char /\ c <> "/"%char.

Lemma name_not_special : name <> "" /\ (name =? "") = false /\ (name =? ".") = false /\ (name =? "..") = false.
Proof.
  destruct letter as (c & rest & -> & Hdot & _). 
  split; [discriminate|]. split; [reflexivity|].
  split; apply String.eqb_neq; intros [= H]; now apply Hdot.
Qed.

Lemma cleanStep_plain (rooted : bool) (out : list string) :
  Filepath.cleanStep rooted out name = name :: out.
Proof.
  destruct name_not_special as (_ & Hempty & Hdot & Hdots).
  unfold Filepath.cleanStep. now rewrite Hempty, Hdot, Hdots.
Qed.

Lemma Base_after_slash (q : string) : Path.Base (q ++ String "/" name) = name.
Proof.
  destruct name_not_special as (Hne & _).
  unfold Path.Base.
  destruct (String.eqb_spec (q ++ String "/" name) "") as [H|_].
  { destruct q; discriminate H. }
  rewrite splitSlash_app, (splitSlash_plain name plain).
  now rewrite lastElement_snoc.
Qed.

Lemma Base_plain : Path.Base name = name.
Proof.
  destruct name_not_special as (Hne & Hempty & _).
  unfold Path.Base. rewrite Hempty, (splitSlash_plain name plain).
  cbn [Path.lastElement]. now rewrite Hempty.
Qed.

Lemma Clean_keeps_last (a : string) :
  Filepath.Clean (a ++ String "/" name) = name
  \/ exists q, Filepath.Clean (a ++ String "/" name) = q ++ String "/" name.
Proof.
  destruct name_not_special as (Hne & Hempty & Hdot & Hdots).
  unfold Filepath.Clean.
  destruct (String.eqb_spec (a ++ String "/" name) "") as [H|_].
  { destruct a; discriminate H. }
  rewrite splitSlash_app, (splitSlash_plain name plain), fold_left_app.
  cbn [fold_left]. rewrite cleanStep_plain. cbn [rev].
  rewrite concat_snoc.
  destruct (Filepath.IsAbs (a ++ String "/" name)).
  - right. destruct (rev _) as [|x l].
    + now exists "".
    + exists ("/" ++ String.concat "/" (x :: l)). now rewrite append_assoc.
  - destruct (rev _) as [|x l].
    + left. now rewrite Hempty.
    + right. exists (String.concat "/" (x :: l)).
      destruct (String.eqb_spec (String.concat "/" (x :: l) ++ String "/" name) "")
        as [H|_]; [|reflexivity].
      destruct (String.concat "/" (x :: l)); discriminate H.
Qed.

Lemma Clean_plain : Filepath.Clean name = name.
Proof.
  destruct name_not_special as (Hne & Hempty & Hdot & Hdots).
  destruct letter as (c & rest & Hshape & _ & Hslash).
  unfold Filepath.Clean. rewrite Hempty, (splitSlash_plain name plain).
  cbn [fold_left]. rewrite cleanStep_plain.
  cbn [rev app String.concat].
  assert (Hrel : Filepath.IsAbs name = false).
  { rewrite Hshape. unfold Filepath.IsAbs. cbn [prefix].
    destruct (ascii_dec "/" c) as [<-|_]; [now contradiction Hslash | reflexivity]. }
  now rewrite Hrel, Hempty.
Qed.

Lemma Base_of_Join (dir : string) : Path.Base (Filepath.Join [dir; name]) = name.
Proof.
  destruct name_not_special as (Hne & Hempty & _).
  cbn [Filepath.Join]. destruct (String.eqb_spec dir "") as [->|Hdir].
  - rewrite Hempty. cbn [String.concat]. rewrite Clean_plain. apply Base_plain.
  - cbn [String.concat]. change (dir ++ "/" ++ name) with (dir ++ String "/" name).
    destruct (Clean_keeps_last dir) as [-> | [q ->]].
    + apply Base_plain.
    + apply Base_after_slash.
Qed.

End BaseName.

Lemma workRootPath_base {Repository Status PipelineConfig Docker : Type}
    (env : Env Repository Status PipelineConfig Docker) (t : Time.Time) :
  Path.Base (workRootPath env t) = "librarian-" ++ formatTimestamp t.
Proof.
  rewrite workRootPath_eq. apply Base_of_Join.
  - rewrite containsByte_append. now rewrite formatTimestamp_no_slash.
  - exists "l"%char, ("ibrarian-" ++ formatTimestamp t).
    repeat split; discriminate.
Qed.

(** X20: whatever the temp root of the process is, the last element of a
    work root returned without override is [librarian-] followed by the
    timestamp of the start time. *)
Theorem created_work_root_is_named_after_start_time
    {Repository Status PipelineConfig Docker : Type}
    (env : Env Repository Status PipelineConfig Docker)
    (t : Time.Time) (h : History Repository Status PipelineConfig Docker) :
  snd (fst (createWorkRoot env t "" h)) = None ->
  Path.Base (fst (fst (createWorkRoot env t "" h)))
  = "librarian-" ++ formatTimestamp t.
Proof.
  intros Hok.
  pose proof (createWorkRoot_outcome env t h "") as Hout.
  destruct (createWorkRoot env t "" h) as [[p e] h'].
  cbn [fst snd] in *. subst e.
  inversion Hout as [Hover | why Hover | | |]; subst.
  - contradiction.
  - apply workRootPath_base.
Qed.

Lemma created_work_root_is_named_after_start_time_witness :
  Path.Base (fst (fst (createWorkRoot (sampleEnv newYearCET [] []) newYearCET "" [])))
  = "librarian-" ++ formatTimestamp newYearCET.
Proof.
  apply (created_work_root_is_named_after_start_time
           (sampleEnv newYearCET [] []) newYearCET []).
  reflexivity.
Defined.

(** ** Errors of the local acquisition *)

(** X21: for a locator that is not a URL, an error of
    [gitrepo.NewRepository] or of [IsClean] is returned as it is, with no
    handle, even when the failing call answered with a handle too; and the
    cleanliness of a repository that could not be opened is not asked
    for. *)
Theorem local_errors_are_passed_on
    {Repository Status PipelineConfig Docker : Type}
    (env : Env Repository Status PipelineConfig Docker)
    (workRoot repo ci : string)
    (h : History Repository Status PipelineConfig Docker)
    (absRepoRoot : string) :
  repo <> "" -> isUrl env repo = false ->
  Filepath.Abs (os_Getwd env) repo = (absRepoRoot, None) ->
  let opts := {| Dir := absRepoRoot; MaybeClone := false; RemoteURL := ""; CI := ci |} in
  (forall answer err,
     newRepository env h opts = (answer, Some err) ->
     cloneOrOpenLanguageRepo env workRoot repo ci h
     = ((None, Some err), (h ++ [EvNewRepository opts (answer, Some err)])%list))
  /\ (forall handle answer err,
        newRepository env h opts = (handle, None) ->
        isClean env (h ++ [EvNewRepository opts (handle, None)])%list handle
        = (answer, Some err) ->
        cloneOrOpenLanguageRepo env workRoot repo ci h
        = ((None, Some err),
           (h ++ [EvNewRepository opts (handle, None);
                  EvIsClean handle (answer, Some err)])%list)).
Proof.
  intros Hrepo Hurl Habs opts. apply String.eqb_neq in Hrepo. split.
  - intros answer err Hopen.
    unfold cloneOrOpenLanguageRepo. rewrite Hrepo, Hurl, Habs.
    unfold bind, gitrepo_NewRepository, call, ret. fold opts. now rewrite Hopen.
  - intros handle answer err Hopen Hclean.
    unfold cloneOrOpenLanguageRepo. rewrite Hrepo, Hurl, Habs.
    unfold bind, gitrepo_NewRepository, Repository_IsClean, call, ret.
    fold opts. rewrite Hopen, Hclean. now rewrite <- app_assoc.
Qed.

Lemma local_errors_are_passed_on_witness :
  cloneOrOpenLanguageRepo (brokenRepoEnv newYearCET) "/work" "repos/go" "" []
  = ((None, Some "repository does not exist"),
     [EvNewRepository {| Dir := "/home/dev/repos/go"; MaybeClone := false;
                         RemoteURL := ""; CI := "" |}
        (Some "/home/dev/repos/go", Some "repository does not exist")]).
Proof.
  exact (proj1 (local_errors_are_passed_on
                  (brokenRepoEnv newYearCET) "/work" "repos/go" "" []
                  "/home/dev/repos/go" ltac:(discriminate) eq_refl eq_refl)
           _ _ eq_refl).
Defined.
